(** * JoyCaption inference script: a shallow embedding

    Source: [src-tauri/resources/joycaption_inference.py].

    The script is command-line glue over three external collaborators:
    [argparse] (standard library), PIL and the transformers/torch runtime.
    - Python [str] values are modelled by [string] holding their UTF-8
      encoding, so that the non-ASCII punctuation of the prompts and
      Unicode whitespace are represented byte for byte.
    - [argparse] is modelled as CPython 3.11 runs it for the parser the
      script declares (option strings, unique prefixes, [--opt=value],
      [--], help, required options, [choices], exit status 2 on error).
    - The PIL / transformers / torch calls are oracles collected in an
      [environment]; every one of them may return or raise.
    - A run is a trace of events (library calls and writes to the two
      output streams) together with the exit status of the process. *)

From Stdlib Require Import String Ascii List ZArith QArith Bool Arith Lia Sorted.
Import ListNotations.
Local Close Scope Q_scope.
Local Close Scope Z_scope.
Local Open Scope nat_scope.
Local Open Scope string_scope.
Local Open Scope list_scope.

(* ================================================================= *)
(** ** Python strings *)

(** [sub in s] on strings. *)
Fixpoint contains (sub s : string) : bool :=
  String.prefix sub s ||
  match s with
  | EmptyString => false
  | String _ s' => contains sub s'
  end.

(** [s.split('=', 1)] when ['=' in s]; [None] when there is no ['=']. *)
Fixpoint split_eq (s : string) : option (string * string) :=
  match s with
  | EmptyString => None
  | String c r =>
      if Ascii.eqb c "="%char then Some (EmptyString, r)
      else match split_eq r with
           | Some (a, b) => Some (String c a, b)
           | None => None
           end
  end.

Definition code (a : ascii) : nat := nat_of_ascii a.

Definition between (lo n hi : nat) : bool := (lo <=? n)%nat && (n <=? hi)%nat.

(** Whitespace as [str.strip()] sees it, on the UTF-8 encoding: the code
    points 9-13, 28-32 (one byte), U+0085 and U+00A0 (two bytes), U+1680,
    U+2000-U+200A, U+2028, U+2029, U+202F, U+205F and U+3000 (three
    bytes). *)
Definition ws1 (a : ascii) : bool :=
  between 9 (code a) 13 || between 28 (code a) 32.

Definition ws2 (a b : ascii) : bool :=
  (code a =? 194)%nat && ((code b =? 133)%nat || (code b =? 160)%nat).

Definition ws3 (a b c : ascii) : bool :=
  ((code a =? 225)%nat && (code b =? 154)%nat && (code c =? 128)%nat)
  || ((code a =? 226)%nat && (code b =? 128)%nat
      && (between 128 (code c) 138 || (code c =? 168)%nat
          || (code c =? 169)%nat || (code c =? 175)%nat))
  || ((code a =? 226)%nat && (code b =? 129)%nat && (code c =? 159)%nat)
  || ((code a =? 227)%nat && (code b =? 128)%nat && (code c =? 128)%nat).

(** Drop leading whitespace characters of a byte list; [w2] and [w3]
    recognise the two-byte and three-byte characters. *)
Fixpoint drop_blank (w2 : ascii -> ascii -> bool)
    (w3 : ascii -> ascii -> ascii -> bool) (s : list ascii) : list ascii :=
  match s with
  | a :: r1 =>
      if ws1 a then drop_blank w2 w3 r1
      else match r1 with
           | b :: r2 =>
               if w2 a b then drop_blank w2 w3 r2
               else match r2 with
                    | c :: r3 =>
                        if w3 a b c then drop_blank w2 w3 r3 else s
                    | [] => s
                    end
           | [] => s
           end
  | [] => s
  end.

(** Scanning from the right end, on the reversed byte list, the bytes of
    a character arrive last byte first. *)
Definition ws2_rev (a b : ascii) : bool := ws2 b a.
Definition ws3_rev (a b c : ascii) : bool := ws3 c b a.

Definition lstrip_bytes (s : list ascii) : list ascii :=
  drop_blank ws2 ws3 s.

Definition rstrip_rev (s : list ascii) : list ascii :=
  drop_blank ws2_rev ws3_rev s.

Definition strip_bytes (s : list ascii) : list ascii :=
  rev (rstrip_rev (rev (lstrip_bytes s))).

(** [s.strip()]. *)
Definition strip (s : string) : string :=
  string_of_list_ascii (strip_bytes (list_ascii_of_string s)).

(* ================================================================= *)
(** ** Dictionaries in insertion order *)

Definition dict (V : Type) : Type := list (string * V).

Fixpoint dict_lookup {V} (d : dict V) (k : string) : option V :=
  match d with
  | [] => None
  | (k', v) :: d' => if String.eqb k' k then Some v else dict_lookup d' k
  end.

(** [d.get(k, dflt)]. *)
Definition dict_get {V} (d : dict V) (k : string) (dflt : V) : V :=
  match dict_lookup d k with
  | Some v => v
  | None => dflt
  end.

(** [list(d.keys())]. *)
Definition dict_keys {V} (d : dict V) : list string := map fst d.

(** [k in d]. *)
Definition dict_mem {V} (d : dict V) (k : string) : bool :=
  match dict_lookup d k with
  | Some _ => true
  | None => false
  end.

(** [d[k] = v]: the value of an existing key is replaced in place, a new
    key is appended. *)
Fixpoint dict_set {V} (d : dict V) (k : string) (v : V) : dict V :=
  match d with
  | [] => [(k, v)]
  | (k', v') :: d' =>
      if String.eqb k' k then (k', v) :: d' else (k', v') :: dict_set d' k v
  end.

(** [x in xs] on a list of strings. *)
Definition mem_string (x : string) (xs : list string) : bool :=
  existsb (String.eqb x) xs.

(* ================================================================= *)
(** ** The mode table (lines 10-33) *)

(** U+2014 EM DASH and U+2026 HORIZONTAL ELLIPSIS, UTF-8 encoded. *)
Definition em_dash : string :=
  String (ascii_of_nat 226) (String (ascii_of_nat 128)
    (String (ascii_of_nat 148) EmptyString)).

Definition ellipsis : string :=
  String (ascii_of_nat 226) (String (ascii_of_nat 128)
    (String (ascii_of_nat 166) EmptyString)).

(** The double quote character, used inside the [straightforward] prompt. *)
Definition dquote : string := String (ascii_of_nat 34) EmptyString.

Definition MODE_PROMPTS : dict string :=
  [ ("descriptive", "Write a long detailed description for this image.");
    ("straightforward",
      ("Write a straightforward caption for this image. Begin with the main subject and medium. "
      ++ "Mention pivotal elements" ++ em_dash ++ "people, objects, scenery"
      ++ em_dash ++ "using confident, definite language. "
      ++ "Focus on concrete details like color, shape, texture, and spatial relationships. "
      ++ "Show how elements interact. Omit mood and speculative wording. "
      ++ "If text is present, quote it exactly. Note any watermarks, signatures, or compression artifacts. "
      ++ "Never mention what's absent, resolution, or unobservable details. "
      ++ "Vary your sentence structure and keep the description concise, without starting with "
      ++ dquote ++ "This image is" ++ ellipsis ++ dquote ++ " or similar phrasing.")%string);
    ("booru",
      ("Generate only comma-separated Danbooru tags (lowercase_underscores). "
      ++ "Strict order: artist:, copyright:, character:, meta:, then general tags. "
      ++ "Include counts (1girl), appearance, clothing, accessories, pose, expression, actions, background. "
      ++ "Use precise Danbooru syntax. No extra text.")%string);
    ("training",
      ("Create a training caption for this image. Start with the main subject, then describe pose, "
      ++ "expression, clothing, background, and art style. Use comma-separated tags. Be specific about visual details.")%string)
  ].

(** [DEFAULT_PROMPT = MODE_PROMPTS["descriptive"]]; the key is present
    (see [DEFAULT_PROMPT_defined]), so the subscript does not raise. *)
Definition DEFAULT_PROMPT : string :=
  match dict_lookup MODE_PROMPTS "descriptive" with
  | Some p => p
  | None => EmptyString
  end.

(* ================================================================= *)
(** ** The command-line parser (lines 37-41)

    [argparse.ArgumentParser()] with the three [add_argument] calls of
    [main], and the [-h/--help] option every parser gets.  An argument
    vector is first classified word by word ([parse_optional]), then
    consumed left to right ([consume]); the first action that exits ends
    the parse.  The model follows [argparse.py] of CPython 3.11: a value
    is checked against [choices] unless it is the word [--], which
    [_get_values] removes, storing the empty list that is left; the
    digits of the negative-number test are the decimal digits of
    Unicode 14, as [\d] matches them. *)

Inductive action : Type :=
| Help               (* -h, --help: print help, exit *)
| StoreImage         (* --image, one argument, required *)
| StoreMode          (* --mode, one argument, choices *)
| StoreTrueLowVram.  (* --low-vram, no argument *)

Definition option_string_actions : dict action :=
  [ ("-h", Help); ("--help", Help); ("--image", StoreImage);
    ("--mode", StoreMode); ("--low-vram", StoreTrueLowVram) ].

(** [choices=list(MODE_PROMPTS.keys())]. *)
Definition mode_choices : list string := dict_keys MODE_PROMPTS.

Definition newline : ascii := ascii_of_nat 10.

(** The code points of a string, read off its UTF-8 encoding. *)
Definition byte (a : ascii) : N := N_of_ascii a.

Fixpoint code_points (s : list ascii) : list N :=
  match s with
  | [] => []
  | a :: r1 =>
      if (byte a <? 192)%N then byte a :: code_points r1
      else if (byte a <? 224)%N then
        match r1 with
        | b :: r2 =>
            ((byte a - 192) * 64 + (byte b - 128))%N :: code_points r2
        | [] => [byte a]
        end
      else if (byte a <? 240)%N then
        match r1 with
        | b :: c :: r3 =>
            ((byte a - 224) * 4096 + (byte b - 128) * 64
             + (byte c - 128))%N :: code_points r3
        | _ => [byte a]
        end
      else
        match r1 with
        | b :: c :: d :: r4 =>
            ((byte a - 240) * 262144 + (byte b - 128) * 4096
             + (byte c - 128) * 64 + (byte d - 128))%N :: code_points r4
        | _ => [byte a]
        end
  end.

(** First code points of the runs of ten decimal digits (general
    category Nd, Unicode 14); U+1D7CE starts five runs in a row. *)
Definition decimal_digit_runs : list N :=
  [ 48; 1632; 1776; 1984; 2406; 2534; 2662; 2790; 2918; 3046; 3174; 3302;
    3430; 3558; 3664; 3792; 3872; 4160; 4240; 6112; 6160; 6470; 6608;
    6784; 6800; 6992; 7088; 7232; 7248; 42528; 43216; 43264; 43472;
    43504; 43600; 44016; 65296; 66720; 68912; 69734; 69872; 69942;
    70096; 70384; 70736; 70864; 71248; 71360; 71472; 71904; 72016;
    72784; 73040; 73120; 92768; 92864; 93008; 120782; 120792; 120802;
    120812; 120822; 123200; 123632; 125264; 130032 ]%N.

(** [\d] on a code point. *)
Definition is_digit (c : N) : bool :=
  existsb (fun lo => (lo <=? c)%N && (c <=? lo + 9)%N) decimal_digit_runs.

(** [$] of the regular expression: the end, or just before a final
    newline. *)
Definition at_end (s : list N) : bool :=
  match s with
  | [] => true
  | [c] => (c =? 10)%N
  | _ => false
  end.

(** [\d+$]. *)
Fixpoint digits_end (s : list N) : bool :=
  match s with
  | [] => false
  | c :: r => is_digit c && (at_end r || digits_end r)
  end.

(** [\d*\.\d+$]. *)
Fixpoint fraction_end (s : list N) : bool :=
  match s with
  | [] => false
  | c :: r => ((c =? 46)%N && digits_end r) || (is_digit c && fraction_end r)
  end.

(** [^-\d+$|^-\d*\.\d+$]. *)
Definition negative_number (s : string) : bool :=
  match code_points (list_ascii_of_string s) with
  | c :: r => (c =? 45)%N && (digits_end r || fraction_end r)
  | [] => false
  end.

Definition starts_with_dash (s : string) : bool :=
  match s with
  | String c _ => Ascii.eqb c "-"%char
  | EmptyString => false
  end.

Definition second_is_dash (s : string) : bool :=
  match s with
  | String _ (String c _) => Ascii.eqb c "-"%char
  | _ => false
  end.

Definition option_tuple : Type := (action * string * option string)%type.

(** Abbreviations: the option strings an argument may stand for. *)
Definition get_option_tuples (arg : string) : list option_tuple :=
  if second_is_dash arg then
    let '(option_prefix, explicit_arg) :=
      match split_eq arg with
      | Some (p, e) => (p, Some e)
      | None => (arg, None)
      end in
    flat_map (fun '(o, a) =>
                if String.prefix option_prefix o then [(a, o, explicit_arg)]
                else [])
             option_string_actions
  else
    let short_option_prefix := substring 0 2 arg in
    let short_explicit_arg := substring 2 (String.length arg - 2) arg in
    flat_map (fun '(o, a) =>
                if String.eqb o short_option_prefix
                then [(a, o, Some short_explicit_arg)]
                else if String.prefix arg o then [(a, o, None)]
                else [])
             option_string_actions.

(** One word of the command line, classified. *)
Inductive token : Type :=
| TArg (s : string)                      (* 'A': an argument *)
| TSep                                   (* '-': the word [--] *)
| TOpt (arg : string) (a : option action) (option_string : string)
       (explicit_arg : option string)    (* 'O': an option, known or not *)
| TAmbiguous (arg : string) (matches : list string).

Definition parse_optional (arg : string) : token :=
  match arg with
  | EmptyString => TArg arg
  | _ =>
    if negb (starts_with_dash arg) then TArg arg
    else
      match dict_lookup option_string_actions arg with
      | Some a => TOpt arg (Some a) arg None
      | None =>
        if (String.length arg =? 1)%nat then TArg arg
        else
          let exact :=
            match split_eq arg with
            | Some (o, e) =>
                match dict_lookup option_string_actions o with
                | Some a => Some (a, o, e)
                | None => None
                end
            | None => None
            end in
          match exact with
          | Some (a, o, e) => TOpt arg (Some a) o (Some e)
          | None =>
            match get_option_tuples arg with
            | [(a, o, e)] => TOpt arg (Some a) o e
            | (_ :: _ :: _) as ts =>
                TAmbiguous arg (map (fun t => snd (fst t)) ts)
            | [] =>
                if negative_number arg then TArg arg
                else if contains " " arg then TArg arg
                else TOpt arg None arg None
            end
          end
      end
  end.

(** Everything after the first [--] is an argument. *)
Fixpoint scan (args : list string) : list token :=
  match args with
  | [] => []
  | a :: rest =>
      if String.eqb a "--" then TSep :: map TArg rest
      else parse_optional a :: scan rest
  end.

Fixpoint first_ambiguous (toks : list token)
  : option (string * list string) :=
  match toks with
  | [] => None
  | TAmbiguous arg ms :: _ => Some (arg, ms)
  | _ :: rest => first_ambiguous rest
  end.

Inductive parse_error : Type :=
| AmbiguousOption (arg : string) (matches : list string)
| ExpectedOneArgument (a : action)
| InvalidChoice (value : string) (choices : list string)
| IgnoredExplicitArgument (a : action) (explicit_arg : string)
| RequiredMissing (option_string : string)
| UnrecognizedArguments (extras : list string).

(** What the parser stores under a destination: a string, or a list of
    strings. *)
Inductive pyvalue : Type :=
| PStr (s : string)
| PList (items : list string).

(** The namespace while parsing, with the words nobody consumed. *)
Record pstate : Type := mk_pstate {
  ns_image : option pyvalue;
  ns_mode : pyvalue;
  ns_low_vram : bool;
  ns_extras : list string
}.

(** Defaults: [image=None], [mode="descriptive"], [low_vram=False]. *)
Definition initial_pstate : pstate :=
  {| ns_image := None; ns_mode := PStr "descriptive"; ns_low_vram := false;
     ns_extras := [] |}.

Definition add_extra (s : string) (st : pstate) : pstate :=
  {| ns_image := ns_image st; ns_mode := ns_mode st;
     ns_low_vram := ns_low_vram st; ns_extras := ns_extras st ++ [s] |}.

Definition set_image (v : pyvalue) (st : pstate) : pstate :=
  {| ns_image := Some v; ns_mode := ns_mode st;
     ns_low_vram := ns_low_vram st; ns_extras := ns_extras st |}.

Definition set_mode (v : pyvalue) (st : pstate) : pstate :=
  {| ns_image := ns_image st; ns_mode := v;
     ns_low_vram := ns_low_vram st; ns_extras := ns_extras st |}.

Definition set_low_vram (st : pstate) : pstate :=
  {| ns_image := ns_image st; ns_mode := ns_mode st;
     ns_low_vram := true; ns_extras := ns_extras st |}.

(** The [args] namespace handed to the rest of [main]. *)
Record arguments : Type := mk_arguments {
  image : pyvalue;
  mode : pyvalue;
  low_vram : bool
}.

Inductive parse_result : Type :=
| Parsed (args : arguments)
| HelpExit
| ErrorExit (e : parse_error).

(** [-hXYZ]: the tail of a short flag is read as further short flags;
    only [h] is one.  Returns the tail that is not. *)
Fixpoint help_chain (e : string) : option string :=
  match e with
  | EmptyString => None
  | String c r => if Ascii.eqb c "h"%char then help_chain r else Some e
  end.

(** [_get_values] for an option that takes one argument: the word [--]
    is removed from the argument list, and the empty list that is left
    is the value, unchecked; any other word is the value if [choices]
    allow it. *)
Definition get_values (choices : option (list string))
    (arg_string : string) : pyvalue + parse_error :=
  if String.eqb arg_string "--" then inl (PList [])
  else match choices with
       | Some allowed =>
           if mem_string arg_string allowed then inl (PStr arg_string)
           else inr (InvalidChoice arg_string allowed)
       | None => inl (PStr arg_string)
       end.

(** After the last word: required options, then leftover words. *)
Definition finish (st : pstate) : parse_result :=
  match ns_image st with
  | None => ErrorExit (RequiredMissing "--image")
  | Some img =>
      match ns_extras st with
      | [] => Parsed {| image := img; mode := ns_mode st;
                        low_vram := ns_low_vram st |}
      | _ :: _ => ErrorExit (UnrecognizedArguments (ns_extras st))
      end
  end.

Fixpoint consume (toks : list token) (st : pstate) : parse_result :=
  match toks with
  | [] => finish st
  | TArg s :: rest => consume rest (add_extra s st)
  | TSep :: rest => consume rest (add_extra "--" st)
  | TAmbiguous arg ms :: _ => ErrorExit (AmbiguousOption arg ms)
  | TOpt arg None _ _ :: rest => consume rest (add_extra arg st)
  | TOpt _ (Some Help) _ None :: _ => HelpExit
  | TOpt _ (Some Help) o (Some e) :: _ =>
      if second_is_dash o then ErrorExit (IgnoredExplicitArgument Help e)
      else match e with
           | EmptyString => ErrorExit (IgnoredExplicitArgument Help e)
           | _ => match help_chain e with
                  | None => HelpExit
                  | Some bad => ErrorExit (IgnoredExplicitArgument Help bad)
                  end
           end
  | TOpt _ (Some StoreTrueLowVram) _ None :: rest =>
      consume rest (set_low_vram st)
  | TOpt _ (Some StoreTrueLowVram) _ (Some e) :: _ =>
      ErrorExit (IgnoredExplicitArgument StoreTrueLowVram e)
  | TOpt _ (Some StoreImage) _ (Some v) :: rest =>
      match get_values None v with
      | inl value => consume rest (set_image value st)
      | inr e => ErrorExit e
      end
  | TOpt _ (Some StoreImage) _ None :: rest =>
      match rest with
      | TArg v :: rest' =>
          match get_values None v with
          | inl value => consume rest' (set_image value st)
          | inr e => ErrorExit e
          end
      | _ => ErrorExit (ExpectedOneArgument StoreImage)
      end
  | TOpt _ (Some StoreMode) _ (Some v) :: rest =>
      match get_values (Some mode_choices) v with
      | inl value => consume rest (set_mode value st)
      | inr e => ErrorExit e
      end
  | TOpt _ (Some StoreMode) _ None :: rest =>
      match rest with
      | TArg v :: rest' =>
          match get_values (Some mode_choices) v with
          | inl value => consume rest' (set_mode value st)
          | inr e => ErrorExit e
          end
      | _ => ErrorExit (ExpectedOneArgument StoreMode)
      end
  end.

(** [parser.parse_args()] on [sys.argv[1:]]. *)
Definition parse_args (argv : list string) : parse_result :=
  let toks := scan argv in
  match first_ambiguous toks with
  | Some (arg, ms) => ErrorExit (AmbiguousOption arg ms)
  | None => consume toks initial_pstate
  end.

(* ================================================================= *)
(** ** Exceptions and the objects of the external libraries *)

(** Exception classes the script can meet; all derive from [Exception].
    [ModuleNotFoundError] derives from [ImportError]. *)
Inductive exc_class : Type :=
| ImportError
| ModuleNotFoundError
| AssertionError
| KeyError
| IndexError
| AttributeError
| TypeError
| OtherException (name : string).

(** An exception instance: its class and [str(e)]. *)
Record exn : Type := mk_exn { exn_class : exc_class; exn_str : string }.

(** [isinstance(e, ImportError)]. *)
Definition is_import_error (e : exn) : bool :=
  match exn_class e with
  | ImportError | ModuleNotFoundError => true
  | _ => false
  end.

(** [isinstance(e, Exception)]. *)
Definition is_exception (e : exn) : bool := true.

(** What a call into a library does: it returns or it raises. *)
Inductive result (A : Type) : Type :=
| Ok (a : A)
| Raise (e : exn).
Arguments Ok {A} a.
Arguments Raise {A} e.

Inductive dtype : Type := Float16 | BFloat16 | Float32 | Int64.

(** Opaque library objects, told apart by an identity. *)
Record pil_image : Type := mk_image { im_mode : string; im_id : nat }.
Record processor : Type := mk_processor { proc_id : nat }.
Record bnb_config : Type := mk_bnb_config { bnb_id : nat }.
Record model : Type := mk_model { model_device : string; model_obj : nat }.
Record tensor : Type := mk_tensor {
  t_shape : list nat;
  t_dtype : dtype;
  t_device : string;
  t_data : nat
}.

(** Keyword arguments of [BitsAndBytesConfig(...)] (lines 73-77). *)
Record bnb_kwargs : Type := mk_bnb_kwargs {
  load_in_4bit : bool;
  bnb_4bit_compute_dtype : dtype;
  bnb_4bit_quant_type : string
}.

(** Keyword arguments of [LlavaForConditionalGeneration.from_pretrained]. *)
Record load_kwargs : Type := mk_load_kwargs {
  quantization_config : option bnb_config;
  torch_dtype : option dtype;
  device_map : string
}.

(** One message of the conversation: [{"role": r, "content": c}]. *)
Record message : Type := mk_message { role : string; content : string }.

(** What [apply_chat_template] may hand back: a [str], or token ids. *)
Inductive template_out : Type :=
| TemplateStr (s : string)
| TemplateIds (ids : list Z).

(** A value of the processor's output mapping: a tensor, or an object
    without a [to] attribute. *)
Inductive feature : Type :=
| FTensor (t : tensor)
| FOther (repr : string).

(** Keyword arguments of [model.generate] besides the inputs. *)
Record generate_kwargs : Type := mk_generate_kwargs {
  max_new_tokens : Z;
  do_sample : bool;
  temperature : Q;
  top_p : Q
}.

(** Argument of [Tensor.to]. *)
Inductive to_target : Type :=
| ToDevice (device : string)
| ToDtype (d : dtype).

(** The external world of one run. *)
Record environment : Type := mk_environment {
  import_module : string -> result unit;
  cuda_is_available : result bool;
  image_open : pyvalue -> result pil_image;
  image_convert : pil_image -> string -> result pil_image;
  processor_from_pretrained : string -> result processor;
  bits_and_bytes_config : bnb_kwargs -> result bnb_config;
  model_from_pretrained : string -> load_kwargs -> result model;
  model_eval : model -> result unit;
  apply_chat_template :
    processor -> list message -> bool -> bool -> result template_out;
  processor_call :
    processor -> list string -> list pil_image -> string
    -> result (dict feature);
  tensor_to : tensor -> to_target -> result tensor;
  model_generate :
    model -> dict feature -> generate_kwargs -> result (list (list Z));
  tokenizer_decode : processor -> list Z -> bool -> bool -> result string
}.

(* ================================================================= *)
(** ** Events and the run monad *)

Inductive stream : Type := Stdout | Stderr.

(** Text written by the process.  Texts composed by [argparse] and by
    the interpreter are kept symbolic. *)
Inductive text : Type :=
| Line (s : string)                 (* [print(s, file=...)] *)
| ArgparseHelp                      (* usage and option help *)
| ArgparseError (e : parse_error)   (* usage, then [prog: error: ...] *)
| Traceback (e : exn).              (* report of an uncaught exception *)

(** Calls into the external libraries, with their arguments. *)
Inductive call : Type :=
| CImport (module_name : string)
| CCudaIsAvailable
| CImageOpen (path : pyvalue)
| CImageConvert (img : pil_image) (to_mode : string)
| CProcessorFromPretrained (model_id : string)
| CBitsAndBytesConfig (kw : bnb_kwargs)
| CModelFromPretrained (model_id : string) (kw : load_kwargs)
| CModelEval (m : model)
| CApplyChatTemplate (p : processor) (convo : list message)
    (tokenize add_generation_prompt : bool)
| CProcessorCall (p : processor) (texts : list string)
    (images : list pil_image) (return_tensors : string)
| CTensorTo (t : tensor) (target : to_target)
| CGenerate (m : model) (inputs : dict feature) (kw : generate_kwargs)
| CDecode (p : processor) (ids : list Z)
    (skip_special_tokens clean_up_tokenization_spaces : bool).

Inductive completion : Type :=
| Returned
| Raised (e : exn).

Inductive event : Type :=
| ECall (c : call) (how : completion)
| EWrite (s : stream) (t : text).

(** What unwinds the stack: [SystemExit] (not an [Exception]) or an
    exception. *)
Inductive signal : Type :=
| SystemExit (status : Z)
| Exc (e : exn).

(** A computation: the events it emitted and how it ended. *)
Definition M (A : Type) : Type := (list event * (A + signal))%type.

Definition ret {A} (a : A) : M A := ([], inl a).

Definition bind {A B} (m : M A) (f : A -> M B) : M B :=
  match m with
  | (t, inl a) => let '(t', r) := f a in (t ++ t', r)
  | (t, inr s) => (t, inr s)
  end.

Notation "x <- m ;; k" := (bind m (fun x => k))
  (at level 61, m at next level, right associativity).
Notation "m ;;; k" := (bind m (fun _ => k))
  (at level 61, right associativity).

Definition raise {A} (e : exn) : M A := ([], inr (Exc e)).

(** [sys.exit(n)]. *)
Definition sys_exit {A} (n : Z) : M A := ([], inr (SystemExit n)).

(** [print(s, file=...)]. *)
Definition print (s : stream) (line : string) : M unit :=
  ([EWrite s (Line line)], inl tt).

Definition write (s : stream) (t : text) : M unit :=
  ([EWrite s t], inl tt).

(** A library call: logged with how it completed. *)
Definition lib {A} (c : call) (r : result A) : M A :=
  match r with
  | Ok a => ([ECall c Returned], inl a)
  | Raise e => ([ECall c (Raised e)], inr (Exc e))
  end.

(** [try: body  except <class> as e: handler]. *)
Definition try_except {A} (body : M A) (catches : exn -> bool)
    (handler : exn -> M A) : M A :=
  match body with
  | (t, inr (Exc e)) =>
      if catches e then let '(t', r) := handler e in (t ++ t', r)
      else (t, inr (Exc e))
  | other => other
  end.

(** [assert c]. *)
Definition assert (c : bool) : M unit :=
  if c then ret tt else raise (mk_exn AssertionError EmptyString).

(* ================================================================= *)
(** ** The script (lines 36-119) *)

Definition model_id : string :=
  "John6666/llama-joycaption-beta-one-hf-llava-nf4".

(** Lines 37-41.  Help goes to standard output with status 0; a usage
    error goes to standard error with status 2. *)
Definition parse_command_line (argv : list string) : M arguments :=
  match parse_args argv with
  | Parsed args => ret args
  | HelpExit => write Stdout ArgparseHelp ;;; sys_exit 0%Z
  | ErrorExit e => write Stderr (ArgparseError e) ;;; sys_exit 2%Z
  end.

(** Line 43: [MODE_PROMPTS.get(args.mode, DEFAULT_PROMPT)].  A list
    cannot be hashed, so it cannot be looked up. *)
Definition select_prompt (args : arguments) : M string :=
  match mode args with
  | PStr m => ret (dict_get MODE_PROMPTS m DEFAULT_PROMPT)
  | PList _ => raise (mk_exn TypeError "unhashable type: 'list'")
  end.

(** Lines 45-51. *)
Definition import_dependencies (env : environment) : M unit :=
  try_except
    (lib (CImport "torch") (import_module env "torch") ;;;
     lib (CImport "PIL") (import_module env "PIL") ;;;
     lib (CImport "transformers") (import_module env "transformers"))
    is_import_error
    (fun e =>
       print Stderr ("Error: Missing dependency: " ++ exn_str e)%string ;;;
       sys_exit 1%Z).

(** Lines 54-56. *)
Definition select_device (env : environment) : M string :=
  available <- lib CCudaIsAvailable (cuda_is_available env) ;;
  let device := if available then "cuda" else "cpu" in
  (if String.eqb device "cpu"
   then print Stderr "Warning: No GPU. Running on CPU (slow)."
   else ret tt) ;;;
  ret device.

(** Lines 58-62. *)
Definition load_image (env : environment) (path : pyvalue) : M pil_image :=
  try_except
    (opened <- lib (CImageOpen path) (image_open env path) ;;
     lib (CImageConvert opened "RGB") (image_convert env opened "RGB"))
    is_exception
    (fun e =>
       print Stderr ("Error opening image: " ++ exn_str e)%string ;;;
       sys_exit 1%Z).

(** Lines 64-68. *)
Definition load_processor (env : environment) : M processor :=
  try_except
    (lib (CProcessorFromPretrained model_id)
         (processor_from_pretrained env model_id))
    is_exception
    (fun e =>
       print Stderr ("Error loading processor: " ++ exn_str e)%string ;;;
       sys_exit 1%Z).

Definition nf4_kwargs : bnb_kwargs :=
  {| load_in_4bit := true;
     bnb_4bit_compute_dtype := Float16;
     bnb_4bit_quant_type := "nf4" |}.

(** Lines 71-77. *)
Definition quantization_options (env : environment) (device : string)
    (args : arguments) : M (option bnb_config) :=
  if String.eqb device "cuda" && (low_vram args || contains "nf4" model_id)
  then cfg <- lib (CBitsAndBytesConfig nf4_kwargs)
                  (bits_and_bytes_config env nf4_kwargs) ;;
       ret (Some cfg)
  else ret None.

Definition load_kwargs_for (bnb : option bnb_config) : load_kwargs :=
  match bnb with
  | Some cfg => {| quantization_config := Some cfg; torch_dtype := None;
                   device_map := "auto" |}
  | None => {| quantization_config := None; torch_dtype := Some BFloat16;
               device_map := "auto" |}
  end.

(** Lines 79-91. *)
Definition load_model (env : environment) (bnb : option bnb_config)
  : M model :=
  try_except
    (m <- lib (CModelFromPretrained model_id (load_kwargs_for bnb))
              (model_from_pretrained env model_id (load_kwargs_for bnb)) ;;
     lib (CModelEval m) (model_eval env m) ;;;
     ret m)
    is_exception
    (fun e =>
       print Stderr ("Error loading model: " ++ exn_str e)%string ;;;
       sys_exit 1%Z).

(** Lines 93-96. *)
Definition conversation (prompt : string) : list message :=
  [ {| role := "system"; content := "You are a helpful image captioner." |};
    {| role := "user"; content := prompt |} ].

(** Lines 97-98: the template is applied, and the result must be a
    [str]. *)
Definition build_prompt (env : environment) (proc : processor)
    (prompt : string) : M string :=
  out <- lib (CApplyChatTemplate proc (conversation prompt) false true)
             (apply_chat_template env proc (conversation prompt) false true) ;;
  match out with
  | TemplateStr s => ret s
  | TemplateIds _ => raise (mk_exn AssertionError EmptyString)
  end.

(** Line 101: [{k: v.to(model.device) if hasattr(v, "to") else v
    for k, v in inputs.items()}], items in order, into a fresh dict. *)
Fixpoint to_device (env : environment) (device : string)
    (items : list (string * feature)) (acc : dict feature)
  : M (dict feature) :=
  match items with
  | [] => ret acc
  | (k, v) :: rest =>
      v' <- match v with
            | FTensor t =>
                t' <- lib (CTensorTo t (ToDevice device))
                          (tensor_to env t (ToDevice device)) ;;
                ret (FTensor t')
            | FOther _ => ret v
            end ;;
      to_device env device rest (dict_set acc k v')
  end.

(** [d[k]]. *)
Definition subscript (d : dict feature) (k : string) : M feature :=
  match dict_lookup d k with
  | Some v => ret v
  | None => raise (mk_exn KeyError k)
  end.

(** Lines 102-103. *)
Definition cast_pixel_values (env : environment) (inputs : dict feature)
  : M (dict feature) :=
  if dict_mem inputs "pixel_values" then
    v <- subscript inputs "pixel_values" ;;
    match v with
    | FTensor t =>
        t' <- lib (CTensorTo t (ToDtype Float16))
                  (tensor_to env t (ToDtype Float16)) ;;
        ret (dict_set inputs "pixel_values" (FTensor t'))
    | FOther _ => raise (mk_exn AttributeError "to")
    end
  else ret inputs.

(** Lines 100-103. *)
Definition prepare_inputs (env : environment) (proc : processor)
    (m : model) (convo_string : string) (img : pil_image)
  : M (dict feature) :=
  inputs <- lib (CProcessorCall proc [convo_string] [img] "pt")
                (processor_call env proc [convo_string] [img] "pt") ;;
  inputs <- to_device env (model_device m) inputs [] ;;
  cast_pixel_values env inputs.

Definition sampling : generate_kwargs :=
  {| max_new_tokens := 512%Z; do_sample := true;
     temperature := (6 # 10)%Q; top_p := (9 # 10)%Q |}.

(** Lines 105-112: the inputs are passed as keyword arguments, and row 0
    of the generated batch is kept. *)
Definition generate (env : environment) (m : model)
    (inputs : dict feature) : M (list Z) :=
  out <- lib (CGenerate m inputs sampling)
             (model_generate env m inputs sampling) ;;
  match out with
  | row :: _ => ret row
  | [] => raise (mk_exn IndexError "index 0 is out of bounds")
  end.

(** [inputs["input_ids"].shape[1]]. *)
Definition prompt_length (inputs : dict feature) : M nat :=
  v <- subscript inputs "input_ids" ;;
  match v with
  | FTensor t =>
      match nth_error (t_shape t) 1 with
      | Some n => ret n
      | None => raise (mk_exn IndexError "tuple index out of range")
      end
  | FOther _ => raise (mk_exn AttributeError "shape")
  end.

(** Lines 114-119. *)
Definition decode_and_print (env : environment) (proc : processor)
    (inputs : dict feature) (generate_ids : list Z) : M unit :=
  n <- prompt_length inputs ;;
  let generate_ids := skipn n generate_ids in
  caption <- lib (CDecode proc generate_ids true false)
                 (tokenizer_decode env proc generate_ids true false) ;;
  let caption := strip caption in
  print Stdout caption.

(** The body of [main] after the arguments have been parsed. *)
Definition caption_image (env : environment) (args : arguments) : M unit :=
  prompt <- select_prompt args ;;
  import_dependencies env ;;;
  device <- select_device env ;;
  img <- load_image env (image args) ;;
  proc <- load_processor env ;;
  bnb <- quantization_options env device args ;;
  m <- load_model env bnb ;;
  convo_string <- build_prompt env proc prompt ;;
  inputs <- prepare_inputs env proc m convo_string img ;;
  generate_ids <- generate env m inputs ;;
  decode_and_print env proc inputs generate_ids.

Definition main (argv : list string) (env : environment) : M unit :=
  args <- parse_command_line argv ;;
  caption_image env args.

(** One run of the process. *)
Record run : Type := mk_run { trace : list event; exit_status : Z }.

(** [if __name__ == "__main__": main()].  Returning from [main] ends the
    process with status 0, [SystemExit(n)] with status [n]; an uncaught
    exception is reported on standard error and the status is 1. *)
Definition run_script (argv : list string) (env : environment) : run :=
  match main argv env with
  | (t, inl _) => {| trace := t; exit_status := 0%Z |}
  | (t, inr (SystemExit n)) => {| trace := t; exit_status := n |}
  | (t, inr (Exc e)) =>
      {| trace := t ++ [EWrite Stderr (Traceback e)]; exit_status := 1%Z |}
  end.

(** The run reached the end of [main]. *)
Definition completed (argv : list string) (env : environment) : Prop :=
  snd (main argv env) = inl tt.

(* ================================================================= *)
(** ** Observations on traces *)

(** The library calls of a trace, in order. *)
Fixpoint calls (t : list event) : list (call * completion) :=
  match t with
  | [] => []
  | ECall c h :: t' => (c, h) :: calls t'
  | EWrite _ _ :: t' => calls t'
  end.

Definition same_stream (a b : stream) : bool :=
  match a, b with
  | Stdout, Stdout | Stderr, Stderr => true
  | _, _ => false
  end.

(** What was written to one stream, in order. *)
Fixpoint written (s : stream) (t : list event) : list text :=
  match t with
  | [] => []
  | EWrite s' x :: t' =>
      if same_stream s s' then x :: written s t' else written s t'
  | ECall _ _ :: t' => written s t'
  end.

(** The steps of the orchestration.  [Setup] is the import of the
    dependencies and the device query; [PrepareInputs] is the
    preprocessing between prompt construction and generation. *)
Inductive step : Type :=
| Setup | LoadImage | LoadProcessor | LoadModel
| BuildPrompt | PrepareInputs | Generate | Decode.

Definition step_of (c : call) : step :=
  match c with
  | CImport _ | CCudaIsAvailable => Setup
  | CImageOpen _ | CImageConvert _ _ => LoadImage
  | CProcessorFromPretrained _ => LoadProcessor
  | CBitsAndBytesConfig _ | CModelFromPretrained _ _ | CModelEval _ =>
      LoadModel
  | CApplyChatTemplate _ _ _ _ => BuildPrompt
  | CProcessorCall _ _ _ _ | CTensorTo _ _ => PrepareInputs
  | CGenerate _ _ _ => Generate
  | CDecode _ _ _ _ => Decode
  end.

Definition rank (s : step) : nat :=
  match s with
  | Setup => 0 | LoadImage => 1 | LoadProcessor => 2 | LoadModel => 3
  | BuildPrompt => 4 | PrepareInputs => 5 | Generate => 6 | Decode => 7
  end.

Definition same_step (a b : step) : bool := (rank a =? rank b)%nat.

(** The steps the specification names. *)
Definition named (s : step) : bool :=
  match s with
  | Setup | PrepareInputs => false
  | _ => true
  end.

(** Runs of equal adjacent steps collapsed to one; [previous] is the
    step just before the list. *)
Fixpoint compress_after (previous : option step) (l : list step)
  : list step :=
  match l with
  | [] => []
  | a :: l' =>
      let repeated :=
        match previous with
        | Some p => same_step p a
        | None => false
        end in
      if repeated then compress_after (Some a) l'
      else a :: compress_after (Some a) l'
  end.

Definition compress (l : list step) : list step := compress_after None l.

(** The step sequence of a trace. *)
Definition steps (t : list event) : list step :=
  compress (map (fun ch => step_of (fst ch)) (calls t)).

(** [earlier] relates a call to any call made after it. *)
Definition in_order (a b : call * completion) : Prop :=
  snd a = Returned /\ (rank (step_of (fst a)) <= rank (step_of (fst b)))%nat.

(** Tensors moved to a device, all successfully. *)
Definition moved (device : string) (ts : list tensor) : list event :=
  map (fun t => ECall (CTensorTo t (ToDevice device)) Returned) ts.

(* ================================================================= *)
(** ** A concrete world, for examples *)

Definition demo_inputs : dict feature :=
  [ ("input_ids", FTensor (mk_tensor [1; 3] Int64 "cpu" 1));
    ("attention_mask", FTensor (mk_tensor [1; 3] Int64 "cpu" 2));
    ("pixel_values", FTensor (mk_tensor [1; 3; 384; 384] Float32 "cpu" 3)) ].

Definition ids_eqb (a b : list Z) : bool :=
  if list_eq_dec Z.eq_dec a b then true else false.

(** No library call is named by the empty string. *)
Definition no_failure : string := EmptyString.

(** A world in which CUDA is present or not, and the library call named
    [failing] raises; every other call returns. *)
Definition demo_env (cuda : bool) (failing : string) : environment :=
  let guard {A} (name : string) (a : A) : result A :=
    if String.eqb failing name
    then Raise (mk_exn (OtherException "RuntimeError") name)
    else Ok a in
  {| import_module := fun m =>
       if String.eqb failing m
       then Raise (mk_exn ModuleNotFoundError m) else Ok tt;
     cuda_is_available := Ok cuda;
     image_open := fun _ => guard "open" (mk_image "RGBA" 0);
     image_convert := fun im m => guard "convert" (mk_image m (S (im_id im)));
     processor_from_pretrained := fun _ => guard "processor" (mk_processor 0);
     bits_and_bytes_config := fun _ => guard "bnb" (mk_bnb_config 0);
     model_from_pretrained := fun _ _ =>
       guard "model" (mk_model (if cuda then "cuda:0" else "cpu") 0);
     model_eval := fun _ => guard "eval" tt;
     apply_chat_template := fun _ convo _ _ =>
       guard "template"
         (TemplateStr (String.concat "|" (map content convo)));
     processor_call := fun _ _ _ _ => guard "preprocess" demo_inputs;
     tensor_to := fun t target =>
       guard "to"
         match target with
         | ToDevice d => mk_tensor (t_shape t) (t_dtype t) d (t_data t)
         | ToDtype ty => mk_tensor (t_shape t) ty (t_device t) (t_data t)
         end;
     model_generate := fun _ _ _ =>
       guard "generate" [[101; 102; 103; 7; 8; 9]%Z];
     tokenizer_decode := fun _ ids _ _ =>
       guard "decode"
         (if ids_eqb ids [7; 8; 9]%Z then "  a cat on a mat " else "?") |}.

(* ================================================================= *)
(** ** Vocabulary of the statements *)

(** Values the command line supplies for [--mode]: the explicit argument
    of a [--mode=value] word, or the argument word that follows a
    [--mode] word. *)
Fixpoint mode_values (toks : list token) : list string :=
  match toks with
  | [] => []
  | TOpt _ (Some StoreMode) _ (Some v) :: rest => v :: mode_values rest
  | TOpt _ (Some StoreMode) _ None :: rest =>
      match rest with
      | TArg v :: rest' => v :: mode_values rest'
      | _ => mode_values rest
      end
  | _ :: rest => mode_values rest
  end.



(** [t] ends with the events [suffix]. *)
Definition ends_with (t suffix : list event) : Prop :=
  exists before, t = before ++ suffix.

(** A checker for [in_order]: steps never go back below [bound], and a
    call is made only if the call before it returned ([previous]). *)
Definition returned (h : completion) : bool :=
  match h with
  | Returned => true
  | Raised _ => false
  end.

Fixpoint sequenced (previous : bool) (bound : nat)
    (l : list (call * completion)) : bool :=
  match l with
  | [] => true
  | (c, h) :: l' =>
      previous
      && (bound <=? rank (step_of c))%nat
      && sequenced (returned h) (rank (step_of c)) l'
  end.

(** Inputs of the example world once moved to the CPU and cast. *)
Definition demo_cpu_inputs : dict feature :=
  [ ("input_ids", FTensor (mk_tensor [1; 3] Int64 "cpu" 1));
    ("attention_mask", FTensor (mk_tensor [1; 3] Int64 "cpu" 2));
    ("pixel_values", FTensor (mk_tensor [1; 3; 384; 384] Float16 "cpu" 3)) ].

Definition demo_argv : list string := ["--image"; "cat.png"].

Definition demo_error (what : string) : exn :=
  mk_exn (OtherException "RuntimeError") what.

(** In [t], the event [a] is immediately followed by [b]. *)
Definition followed_by (t : list event) (a b : event) : Prop :=
  exists before after, t = before ++ a :: b :: after.

(** A run of whitespace characters. *)
Inductive blank (w2 : ascii -> ascii -> bool)
    (w3 : ascii -> ascii -> ascii -> bool) : list ascii -> Prop :=
| blank_nil : blank w2 w3 []
| blank_1 a r : ws1 a = true -> blank w2 w3 r -> blank w2 w3 (a :: r)
| blank_2 a b r :
    w2 a b = true -> blank w2 w3 r -> blank w2 w3 (a :: b :: r)
| blank_3 a b c r :
    w3 a b c = true -> blank w2 w3 r -> blank w2 w3 (a :: b :: c :: r).

(** The byte list starts with a whitespace character. *)
Definition starts_blank (w2 : ascii -> ascii -> bool)
    (w3 : ascii -> ascii -> ascii -> bool) (s : list ascii) : bool :=
  match s with
  | a :: r1 =>
      ws1 a
      || match r1 with
         | b :: r2 =>
             w2 a b
             || match r2 with
                | c :: _ => w3 a b c
                | [] => false
                end
         | [] => false
         end
  | [] => false
  end.

(** [caption] is [decoded] without its leading and trailing whitespace:
    what was cut on either side is whitespace only, and [caption]
    neither starts nor ends with a whitespace character. *)
Definition stripped_of (decoded caption : string) : Prop :=
  exists l r,
    list_ascii_of_string decoded = l ++ list_ascii_of_string caption ++ r
    /\ blank ws2 ws3 l
    /\ blank ws2 ws3 r
    /\ starts_blank ws2 ws3 (list_ascii_of_string caption) = false
    /\ starts_blank ws2_rev ws3_rev (rev (list_ascii_of_string caption))
       = false.

(** The text the script leaves on standard error when the library call
    [c] raises [e]: the message of the handler around the call (lines
    49-51, 60-62, 66-68, 89-91), or the interpreter's report when no
    handler applies. *)
Definition failure_report (c : call) (e : exn) : text :=
  match c with
  | CImport _ =>
      if is_import_error e
      then Line ("Error: Missing dependency: " ++ exn_str e)%string
      else Traceback e
  | CImageOpen _ | CImageConvert _ _ =>
      Line ("Error opening image: " ++ exn_str e)%string
  | CProcessorFromPretrained _ =>
      Line ("Error loading processor: " ++ exn_str e)%string
  | CModelFromPretrained _ _ | CModelEval _ =>
      Line ("Error loading model: " ++ exn_str e)%string
  | _ => Traceback e
  end.

(** How many library calls of a trace belong to the step [s]. *)
Definition calls_in (s : step) (t : list event) : nat :=
  length (filter (fun ch => same_step s (step_of (fst ch))) (calls t)).

Definition cpu_warning : event :=
  EWrite Stderr (Line "Warning: No GPU. Running on CPU (slow).").

(** A world like [demo_env true no_failure], except that the chat
    template hands back token ids instead of a string. *)
Definition ids_env : environment :=
  let base := demo_env true no_failure in
  {| import_module := import_module base;
     cuda_is_available := cuda_is_available base;
     image_open := image_open base;
     image_convert := image_convert base;
     processor_from_pretrained := processor_from_pretrained base;
     bits_and_bytes_config := bits_and_bytes_config base;
     model_from_pretrained := model_from_pretrained base;
     model_eval := model_eval base;
     apply_chat_template := fun _ _ _ _ => Ok (TemplateIds [1; 2; 3]%Z);
     processor_call := processor_call base;
     tensor_to := tensor_to base;
     model_generate := model_generate base;
     tokenizer_decode := tokenizer_decode base |}.

(** A world like [demo_env false no_failure], except that the tokenizer
    decodes to [decoded], and the processor returns [raw]. *)
Definition custom_env (raw : dict feature) (decoded : string)
  : environment :=
  let base := demo_env false no_failure in
  {| import_module := import_module base;
     cuda_is_available := cuda_is_available base;
     image_open := image_open base;
     image_convert := image_convert base;
     processor_from_pretrained := processor_from_pretrained base;
     bits_and_bytes_config := bits_and_bytes_config base;
     model_from_pretrained := model_from_pretrained base;
     model_eval := model_eval base;
     apply_chat_template := apply_chat_template base;
     processor_call := fun _ _ _ _ => Ok raw;
     tensor_to := tensor_to base;
     model_generate := model_generate base;
     tokenizer_decode := fun _ _ _ _ => Ok decoded |}.

(** Values the command line supplies for [--image], as [mode_values]
    does for [--mode]. *)
Fixpoint image_values (toks : list token) : list string :=
  match toks with
  | [] => []
  | TOpt _ (Some StoreImage) _ (Some v) :: rest => v :: image_values rest
  | TOpt _ (Some StoreImage) _ None :: rest =>
      match rest with
      | TArg v :: rest' => v :: image_values rest'
      | _ => image_values rest
      end
  | TOpt _ (Some StoreMode) _ None :: rest =>
      match rest with
      | TArg _ :: rest' => image_values rest'
      | _ => image_values rest
      end
  | _ :: rest => image_values rest
  end.

(** What the parser stores for the value [v] of an option. *)
Definition stored (v : string) : pyvalue :=
  if String.eqb v "--" then PList [] else PStr v.

Definition is_low_vram_option (t : token) : bool :=
  match t with
  | TOpt _ (Some StoreTrueLowVram) _ _ => true
  | _ => false
  end.

(** Processor outputs for the examples: one without [input_ids], one
    whose prompt is longer than anything generated. *)
Definition no_ids_inputs : dict feature :=
  [ ("attention_mask", FTensor (mk_tensor [1; 3] Int64 "cpu" 2)) ].

Definition long_prompt_inputs : dict feature :=
  [ ("input_ids", FTensor (mk_tensor [1; 9] Int64 "cpu" 1)) ].

(** [v'] is [v] after line 101: a tensor has been moved to [device] by
    [Tensor.to], any other value is passed on as it is. *)
Definition device_copy (env : environment) (device : string)
    (v v' : feature) : Prop :=
  match v with
  | FTensor t =>
      exists t', tensor_to env t (ToDevice device) = Ok t' /\ v' = FTensor t'
  | FOther _ => v' = v
  end.

(** [v'] is the value under key [k] after lines 101-103: moved to
    [device] and, under the key [pixel_values], cast to [float16]. *)
Definition prepared (env : environment) (device : string) (k : string)
    (v v' : feature) : Prop :=
  match v with
  | FTensor t =>
      exists t1,
        tensor_to env t (ToDevice device) = Ok t1
        /\ if String.eqb k "pixel_values"
           then exists t2,
                  tensor_to env t1 (ToDtype Float16) = Ok t2
                  /\ v' = FTensor t2
           else v' = FTensor t1
  | FOther _ => v' = v
  end.







(* ================================================================= *)
(** * Properties *)

(** ** Basic facts about the model *)


Lemma nf4_in_model_id : contains "nf4" model_id = true.
Proof. vm_compute. reflexivity. Qed.

(** The parser on a few command lines. *)
Example parse_minimal :
  parse_args ["--image"; "cat.png"]
  = Parsed {| image := PStr "cat.png"; mode := PStr "descriptive";
              low_vram := false |}.
Proof. reflexivity. Qed.

Example parse_abbreviated :
  parse_args ["--i=cat.png"; "--mo"; "booru"; "--low"]
  = Parsed {| image := PStr "cat.png"; mode := PStr "booru";
              low_vram := true |}.
Proof. reflexivity. Qed.

Example parse_unchecked_word :
  parse_args ["--image=--"; "--mode=--"]
  = Parsed {| image := PList []; mode := PList []; low_vram := false |}.
Proof. reflexivity. Qed.

Example parse_unicode_number :
  parse_args ["--image"; String "-" (String (ascii_of_nat 217)
                                       (String (ascii_of_nat 161) EmptyString))]
  = Parsed {| image := PStr (String "-" (String (ascii_of_nat 217)
                                          (String (ascii_of_nat 161)
                                             EmptyString)));
              mode := PStr "descriptive"; low_vram := false |}.
Proof. reflexivity. Qed.

Example parse_invalid_choice :
  parse_args ["--image"; "cat.png"; "--mode"; "Booru"]
  = ErrorExit (InvalidChoice "Booru" mode_choices).
Proof. reflexivity. Qed.

Example parse_missing_image :
  parse_args ["--mode"; "booru"] = ErrorExit (RequiredMissing "--image").
Proof. reflexivity. Qed.

Example parse_leftover :
  parse_args ["--image"; "cat.png"; "dog.png"]
  = ErrorExit (UnrecognizedArguments ["dog.png"]).
Proof. reflexivity. Qed.

Example parse_help_first :
  parse_args ["--help"; "--mode"; "bogus"] = HelpExit.
Proof. reflexivity. Qed.

Example parse_error_first :
  parse_args ["--mode"; "bogus"; "--help"]
  = ErrorExit (InvalidChoice "bogus" mode_choices).
Proof. reflexivity. Qed.

Example strip_example :
  strip (String (ascii_of_nat 9) "  a  cat " ++ String newline EmptyString)
  = "a  cat".
Proof. reflexivity. Qed.

Lemma quantization_options_eq env device args :
  quantization_options env device args =
  if String.eqb device "cuda"
  then cfg <- lib (CBitsAndBytesConfig nf4_kwargs)
                  (bits_and_bytes_config env nf4_kwargs) ;;
       ret (Some cfg)
  else ret None.
Proof.
  unfold quantization_options.
  rewrite nf4_in_model_id, orb_true_r, andb_true_r. reflexivity.
Qed.

Lemma calls_app t1 t2 : calls (t1 ++ t2) = calls t1 ++ calls t2.
Proof.
  induction t1 as [|[c h|s x] t1 IH]; simpl; [reflexivity| |assumption].
  now rewrite IH.
Qed.

Lemma written_app s t1 t2 : written s (t1 ++ t2) = written s t1 ++ written s t2.
Proof.
  induction t1 as [|[c h|s' x] t1 IH]; simpl; [reflexivity|assumption|].
  destruct (same_stream s s'); simpl; now rewrite IH.
Qed.

Lemma calls_moved device ts :
  calls (moved device ts) =
  map (fun t => (CTensorTo t (ToDevice device), Returned)) ts.
Proof. induction ts; simpl; [reflexivity|now rewrite IHts]. Qed.

Lemma written_moved s device ts : written s (moved device ts) = [].
Proof. induction ts; simpl; [reflexivity|assumption]. Qed.

(** The dict comprehension of line 101 only calls [Tensor.to], in order,
    and stops at the first call that raises. *)
Lemma to_device_shape env device items acc :
  exists ts,
    (exists d, to_device env device items acc = (moved device ts, inl d))
    \/ (exists t e,
          to_device env device items acc =
          (moved device ts ++ [ECall (CTensorTo t (ToDevice device)) (Raised e)],
           inr (Exc e))).
Proof.
  revert acc. induction items as [|[k v] items IH]; intros acc.
  - exists []. left. exists acc. reflexivity.
  - destruct v as [t|r]; simpl.
    + destruct (tensor_to env t (ToDevice device)) as [t'|e] eqn:Hto; simpl.
      * destruct (IH (dict_set acc k (FTensor t'))) as [ts [[d H]|[u [e H]]]];
          rewrite H; exists (t :: ts); [left; exists d|right; exists u, e];
          reflexivity.
      * exists []. right. exists t, e. reflexivity.
    + destruct (IH (dict_set acc k (FOther r))) as [ts [[d H]|[u [e H]]]];
        rewrite H; exists ts; [left; exists d|right; exists u, e];
        reflexivity.
Qed.

Lemma ends_with_refl s : ends_with s s.
Proof. exists []. reflexivity. Qed.

Lemma ends_with_cons x t s : ends_with t s -> ends_with (x :: t) s.
Proof. intros [b ->]. exists (x :: b). reflexivity. Qed.

Lemma ends_with_app t1 t2 s : ends_with t2 s -> ends_with (t1 ++ t2) s.
Proof. intros [b ->]. exists (t1 ++ b). now rewrite app_assoc. Qed.

Ltac solve_suffix :=
  first [ apply ends_with_refl
        | apply ends_with_cons; solve_suffix
        | apply ends_with_app; solve_suffix ].

(** Traces in right-nested form. *)
Ltac normalize_trace :=
  repeat rewrite <- app_assoc; repeat rewrite app_nil_r; cbn [app].

(** All the ways an event can be a member of an explored trace. *)
Ltac in_cases H :=
  repeat (cbn [In] in H;
          lazymatch type of H with
          | _ \/ _ => destruct H as [H|H]
          | In _ (_ ++ _) => apply in_app_or in H; destruct H as [H|H]
          | In _ (moved _ _) =>
              apply in_map_iff in H; destruct H as [? [H _]]
          | False => destruct H
          | _ = _ =>
              first [ discriminate H
                    | progress subst
                    | inversion H; subst; try clear H ]
          end).

(** ** Case analysis of a run

    [explore] follows the script statement by statement, splitting on
    what each library call does. *)

Ltac reduce_run :=
  cbn [bind lib ret raise sys_exit print write try_except is_exception
       app fst snd trace exit_status String.eqb Ascii.eqb Bool.eqb].

Ltac explore_step :=
  match goal with
  | |- context [parse_args ?a] =>
      is_var a; destruct (parse_args a) eqn:?
  | |- context [match mode ?a with _ => _ end] =>
      destruct (mode a) eqn:?
  | |- context [quantization_options ?e ?d ?a] =>
      rewrite (quantization_options_eq e d a)
  | |- context [to_device ?e ?d ?i ?a] =>
      let H := fresh "Hmove" in
      destruct (to_device_shape e d i a) as [? [[? H]|[? [? H]]]];
      rewrite H; clear H
  | |- context [lib _ ?r] =>
      lazymatch r with
      | Ok _ => fail
      | Raise _ => fail
      | _ => destruct r eqn:?
      end
  | |- context [if is_import_error ?e then _ else _] =>
      destruct (is_import_error e) eqn:?
  | |- context [if dict_mem ?d ?k then _ else _] =>
      unfold dict_mem
  | |- context [match dict_lookup ?d ?k with _ => _ end] =>
      destruct (dict_lookup d k) eqn:?
  | |- context [match nth_error ?l ?n with _ => _ end] =>
      destruct (nth_error l n) eqn:?
  | |- context [match ?x with FTensor _ => _ | FOther _ => _ end] =>
      is_var x; destruct x
  | |- context [match ?x with TemplateStr _ => _ | TemplateIds _ => _ end] =>
      is_var x; destruct x
  | |- context [match ?x with true => _ | false => _ end] =>
      is_var x; destruct x
  | |- context [match ?x with nil => _ | cons _ _ => _ end] =>
      is_var x; destruct x
  end; reduce_run.

Ltac unfold_script :=
  unfold run_script, completed, main, parse_command_line, caption_image,
    select_prompt, import_dependencies, select_device, load_image, load_processor,
    load_model, build_prompt, prepare_inputs, generate, decode_and_print,
    cast_pixel_values, prompt_length, subscript;
  reduce_run.

Ltac explore := unfold_script; repeat explore_step; normalize_trace.

(* ================================================================= *)
(** ** The parser and the mode table *)

Lemma list_ind2 {A} (P : list A -> Prop) :
  P [] -> (forall a, P [a]) ->
  (forall a b l, P l -> P (b :: l) -> P (a :: b :: l)) ->
  forall l, P l.
Proof.
  intros H0 H1 H2.
  assert (H : forall l, P l /\ forall a, P (a :: l)).
  { induction l as [|b l [IHl IHl']]; split; auto. }
  intro l. apply H.
Qed.

Lemma mem_string_In x xs : mem_string x xs = true <-> In x xs.
Proof.
  unfold mem_string. rewrite existsb_exists. split.
  - intros [y [Hin Heq]]. apply String.eqb_eq in Heq. now subst.
  - intros Hin. exists x. split; [assumption|apply String.eqb_refl].
Qed.

Lemma mode_choices_eq :
  mode_choices = ["descriptive"; "straightforward"; "booru"; "training"].
Proof. reflexivity. Qed.

Lemma lookup_of_choice m :
  mem_string m mode_choices = true ->
  exists p, dict_lookup MODE_PROMPTS m = Some p.
Proof.
  rewrite mem_string_In, mode_choices_eq. simpl.
  intros [H|[H|[H|[H|[]]]]]; subst m; eexists; reflexivity.
Qed.

Ltac split_consume H :=
  repeat match type of H with
         | context [match ?x with _ => _ end] =>
             destruct x eqn:?; try discriminate H
         | context [if ?b then _ else _] =>
             destruct b eqn:?; try discriminate H
         end.

Lemma get_values_stored choices v value :
  get_values choices v = inl value -> value = stored v.
Proof.
  unfold get_values, stored. destruct (String.eqb v "--").
  - intros H. now injection H.
  - destruct choices as [allowed|].
    + destruct (mem_string v allowed); intros H; [now injection H|].
      discriminate H.
    + intros H. now injection H.
Qed.

Lemma get_values_checked allowed v value :
  get_values (Some allowed) v = inl value ->
  v = "--" \/ mem_string v allowed = true.
Proof.
  unfold get_values. destruct (String.eqb v "--") eqn:E.
  - intros _. left. now apply String.eqb_eq.
  - destruct (mem_string v allowed); intros H; [now right|discriminate H].
Qed.

Lemma last_cons_default {A} (l : list A) (v d : A) :
  last (v :: l) d = last l v.
Proof.
  revert v d. induction l as [|a l IH]; intros v d; [reflexivity|].
  change (last (v :: a :: l) d) with (last (a :: l) d).
  rewrite (IH a d), (IH a v). reflexivity.
Qed.

Lemma last_map {A B} (f : A -> B) (l : list A) (d : A) :
  last (map f l) (f d) = f (last l d).
Proof.
  revert d. induction l as [|a l IH]; intros d; [reflexivity|].
  cbn [map]. rewrite !last_cons_default. apply IH.
Qed.

Lemma in_last {A} (l : list A) (d : A) : l <> [] -> In (last l d) l.
Proof.
  induction l as [|a l IH]; intros H; [contradiction|].
  destruct l as [|b l]; [left; reflexivity|].
  right. rewrite !last_cons_default.
  assert (Hne : b :: l <> []) by discriminate.
  specialize (IH Hne). rewrite last_cons_default in IH. exact IH.
Qed.

(** What the namespace holds at the end is what the last occurrence of
    each option stored. *)
Lemma consume_last_wins toks :
  forall st args,
    consume toks st = Parsed args ->
    Some (image args)
    = last (map (fun v => Some (stored v)) (image_values toks)) (ns_image st)
    /\ mode args = last (map stored (mode_values toks)) (ns_mode st)
    /\ low_vram args
       = ns_low_vram st || existsb is_low_vram_option toks.
Proof.
  induction toks as [|a|a b l IHl IHbl] using list_ind2; intros st args H.
  - unfold consume, finish in H. split_consume H. injection H as <-.
    cbn. rewrite orb_false_r. auto.
  - cbn [consume] in H. unfold finish in H.
    destruct a as [s| |arg [[| | |]|] o [e|]|arg ms]; try discriminate H;
      try (destruct (get_values _ e) as [value|err] eqn:G;
           [apply get_values_stored in G; subst value|discriminate H]);
      split_consume H; injection H as <-; cbn;
      rewrite ?orb_false_r, ?orb_true_r; auto.
  - cbn [consume] in H; fold consume in H.
    destruct a as [s| |arg [[| | |]|] o [e|]|arg ms]; try discriminate H.
    + apply IHbl in H. exact H.
    + apply IHbl in H. exact H.
    + split_consume H.
    + destruct (get_values None e) as [value|err] eqn:G; [|discriminate H].
      apply get_values_stored in G. subst value. apply IHbl in H.
      cbn [image_values mode_values map existsb is_low_vram_option orb].
      cbn [set_image ns_image ns_mode ns_low_vram] in H.
      rewrite last_cons_default. exact H.
    + destruct b; try discriminate H.
      destruct (get_values None s) as [value|err] eqn:G; [|discriminate H].
      apply get_values_stored in G. subst value. apply IHl in H.
      cbn [image_values mode_values map existsb is_low_vram_option orb].
      cbn [set_image ns_image ns_mode ns_low_vram] in H.
      rewrite last_cons_default. exact H.
    + destruct (get_values (Some mode_choices) e) as [value|err] eqn:G;
        [|discriminate H].
      apply get_values_stored in G. subst value. apply IHbl in H.
      cbn [image_values mode_values map existsb is_low_vram_option orb].
      cbn [set_mode ns_image ns_mode ns_low_vram] in H.
      rewrite last_cons_default. exact H.
    + destruct b; try discriminate H.
      destruct (get_values (Some mode_choices) s) as [value|err] eqn:G;
        [|discriminate H].
      apply get_values_stored in G. subst value. apply IHl in H.
      cbn [image_values mode_values map existsb is_low_vram_option orb].
      cbn [set_mode ns_image ns_mode ns_low_vram] in H.
      rewrite last_cons_default. exact H.
    + apply IHbl in H.
      cbn [set_low_vram ns_image ns_mode ns_low_vram] in H.
      cbn [image_values mode_values map existsb is_low_vram_option].
      destruct H as [Hi [Hm Hl]]. split; [exact Hi|]. split; [exact Hm|].
      rewrite Hl. cbn [orb]. rewrite orb_true_r. reflexivity.
    + apply IHbl in H. exact H.
    + apply IHbl in H. exact H.
Qed.

Lemma parse_args_consume argv args :
  parse_args argv = Parsed args ->
  consume (scan argv) initial_pstate = Parsed args.
Proof.
  unfold parse_args. destruct (first_ambiguous (scan argv)) as [[? ?]|];
    [discriminate|auto].
Qed.

(** A value that is neither a choice nor the word [--] stops the parse,
    whatever surrounds it. *)
Lemma consume_rejects toks :
  forall st v args,
    In v (mode_values toks) ->
    v <> "--" ->
    mem_string v mode_choices = false ->
    consume toks st <> Parsed args.
Proof.
  assert (Hbad : forall v value,
             v <> "--" -> mem_string v mode_choices = false ->
             get_values (Some mode_choices) v <> inl value).
  { intros v value Hne Hv G. apply get_values_checked in G as [G|G];
      [contradiction|congruence]. }
  induction toks as [|a|a b l IHl IHbl] using list_ind2;
    intros st v args Hin Hne Hv H.
  - destruct Hin.
  - destruct a as [s| |arg [[| | |]|] o [e|]|arg ms]; try destruct Hin;
      try contradiction.
    cbn [consume] in H. subst e.
    destruct (get_values (Some mode_choices) v) as [value|err] eqn:G;
      [exact (Hbad _ _ Hne Hv G)|discriminate H].
  - cbn [consume] in H; fold consume in H.
    destruct a as [s| |arg [[| | |]|] o [e|]|arg ms]; try discriminate H;
      try (cbn [mode_values] in Hin; fold mode_values in Hin;
           eapply IHbl; [exact Hin|exact Hne|exact Hv|exact H]).
    + split_consume H.
    + destruct (get_values None e) as [value|err]; [|discriminate H].
      cbn [mode_values] in Hin; fold mode_values in Hin.
      eapply IHbl; [exact Hin|exact Hne|exact Hv|exact H].
    + destruct b; try discriminate H.
      destruct (get_values None s) as [value|err]; [|discriminate H].
      cbn [mode_values] in Hin; fold mode_values in Hin.
      eapply IHl; [exact Hin|exact Hne|exact Hv|exact H].
    + cbn [mode_values] in Hin; fold mode_values in Hin.
      destruct (get_values (Some mode_choices) e) as [value|err] eqn:G;
        [|discriminate H].
      destruct Hin as [<-|Hin]; [exact (Hbad _ _ Hne Hv G)|].
      eapply IHbl; [exact Hin|exact Hne|exact Hv|exact H].
    + destruct b; try discriminate H.
      cbn [mode_values] in Hin; fold mode_values in Hin.
      destruct (get_values (Some mode_choices) s) as [value|err] eqn:G;
        [|discriminate H].
      destruct Hin as [<-|Hin]; [exact (Hbad _ _ Hne Hv G)|].
      eapply IHl; [exact Hin|exact Hne|exact Hv|exact H].
Qed.



(** On an accepted command line the mode is one of the choices, unless
    the last value given for it is the word [--], for which the empty
    list is stored. *)
Lemma parse_args_mode argv args :
  parse_args argv = Parsed args ->
  (exists m, mode args = PStr m /\ mem_string m mode_choices = true)
  \/ (mode args = PList []
      /\ last (mode_values (scan argv)) "descriptive" = "--").
Proof.
  intros H. apply parse_args_consume in H.
  destruct (consume_last_wins _ _ _ H) as [_ [Hm _]].
  cbn [initial_pstate ns_mode] in Hm.
  change (PStr "descriptive") with (stored "descriptive") in Hm.
  rewrite last_map in Hm.
  destruct (mode_values (scan argv)) as [|v0 vs] eqn:E.
  - left. exists "descriptive". split; [exact Hm|reflexivity].
  - set (v := last (v0 :: vs) "descriptive") in *.
    assert (Hin : In v (mode_values (scan argv))).
    { rewrite E. apply in_last. discriminate. }
    unfold stored in Hm. destruct (String.eqb v "--") eqn:Ev.
    + right. split; [exact Hm|]. now apply String.eqb_eq.
    + left. exists v. split; [exact Hm|].
      destruct (mem_string v mode_choices) eqn:Hv; [reflexivity|].
      exfalso. refine (consume_rejects _ _ _ _ Hin _ Hv H).
      intros ->. discriminate Ev.
Qed.

Lemma prompt_lookup argv args m :
  parse_args argv = Parsed args ->
  mode args = PStr m ->
  dict_lookup MODE_PROMPTS m = Some (dict_get MODE_PROMPTS m DEFAULT_PROMPT).
Proof.
  intros H Hm. destruct (parse_args_mode _ _ H) as [[m' [E Hc]]|[E _]];
    [|congruence].
  rewrite Hm in E. injection E as <-.
  destruct (lookup_of_choice _ Hc) as [p Hp].
  unfold dict_get. rewrite Hp. reflexivity.
Qed.








(* ================================================================= *)
(** ** Failures *)

(** C2.  Whichever library call raises (an import, opening or converting
    the image, loading the processor or the model, building the prompt,
    preprocessing, generation, decoding), that call is the last one of
    the run, an error message naming the exception is written to standard
    error right after it, and the exit status is 1.  More generally a
    run that got past the parser and does not reach the end of [main]
    ends with a message on standard error and status 1. *)
Theorem C2_failure_reported :
  forall argv env,
    let r := run_script argv env in
    (forall c e,
        In (ECall c (Raised e)) (trace r) ->
        exit_status r = 1%Z
        /\ exists msg,
             ends_with (trace r) [ECall c (Raised e); EWrite Stderr msg]
             /\ (msg = Traceback e
                 \/ exists prefix, msg = Line (prefix ++ exn_str e)%string))
    /\ (forall args,
          parse_args argv = Parsed args ->
          ~ completed argv env ->
          exit_status r = 1%Z
          /\ exists msg, ends_with (trace r) [EWrite Stderr msg]).
Proof.
  intros argv env r. subst r. split.
  - intros c e. explore; intros H; in_cases H;
      (split; [reflexivity|]);
      eexists; (split; [solve_suffix|]);
      first [left; reflexivity | right; eexists; reflexivity].
  - intros args. explore; intros Hp Hc;
      try discriminate Hp;
      try (exfalso; apply Hc; reflexivity);
      (split; [reflexivity|]); eexists; solve_suffix.
Qed.

Ltac find_event := vm_compute; repeat (first [left; reflexivity | right]).

Lemma C2_witness :
  In (ECall (CGenerate (mk_model "cpu" 0) demo_cpu_inputs sampling)
            (Raised (demo_error "generate")))
     (trace (run_script demo_argv (demo_env false "generate")))
  /\ exit_status (run_script demo_argv (demo_env false "generate")) = 1%Z
  /\ ends_with (trace (run_script demo_argv (demo_env false "generate")))
       [ECall (CGenerate (mk_model "cpu" 0) demo_cpu_inputs sampling)
              (Raised (demo_error "generate"));
        EWrite Stderr (Traceback (demo_error "generate"))].
Proof.
  assert (Hin : In (ECall (CGenerate (mk_model "cpu" 0) demo_cpu_inputs
                                     sampling)
                          (Raised (demo_error "generate")))
                   (trace (run_script demo_argv
                                      (demo_env false "generate")))).
  { find_event. }
  split; [exact Hin|].
  destruct (proj1 (C2_failure_reported demo_argv (demo_env false "generate"))
              _ _ Hin) as [Hstatus _].
  split; [exact Hstatus|].
  vm_compute. solve_suffix.
Defined.

(* ================================================================= *)
(** ** The order of the library calls *)

Lemma sequenced_weaken l :
  forall p b b',
    b' <= b -> sequenced p b l = true -> sequenced p b' l = true.
Proof.
  destruct l as [|[c h] l]; intros p b b' Hle H; [reflexivity|].
  cbn [sequenced] in *.
  apply andb_true_iff in H as [H H3]. apply andb_true_iff in H as [H1 H2].
  apply Nat.leb_le in H2.
  rewrite H1, H3, andb_true_r. apply Nat.leb_le. lia.
Qed.

Lemma sequenced_sound l :
  forall p b,
    sequenced p b l = true ->
    Forall (fun x => b <= rank (step_of (fst x))) l
    /\ StronglySorted in_order l
    /\ (l <> [] -> p = true).
Proof.
  induction l as [|[c h] l IH]; intros p b H.
  - repeat split; try constructor. intros Hne. now destruct Hne.
  - cbn [sequenced] in H.
    apply andb_true_iff in H as [H H3]. apply andb_true_iff in H as [H1 H2].
    apply Nat.leb_le in H2.
    destruct (IH _ _ H3) as [Hall [Hsorted Hprev]].
    split; [|split].
    + constructor; [exact H2|].
      eapply Forall_impl; [|exact Hall]. cbn. intros x Hx. lia.
    + constructor; [exact Hsorted|].
      destruct l as [|y l]; [constructor|].
      assert (Hh : returned h = true) by (apply Hprev; discriminate).
      destruct h; [|discriminate Hh].
      eapply Forall_impl; [|exact Hall]. intros x Hx.
      split; [reflexivity|exact Hx].
    + intros _. exact H1.
Qed.

Lemma sequenced_moved device ts rest :
  forall b,
    b <= rank PrepareInputs ->
    sequenced true (rank PrepareInputs) rest = true ->
    sequenced true b
      (map (fun t => (CTensorTo t (ToDevice device), Returned)) ts ++ rest)
    = true.
Proof.
  induction ts as [|t ts IH]; intros b Hb H.
  - exact (sequenced_weaken _ _ _ _ Hb H).
  - cbn [map app sequenced step_of returned andb].
    rewrite (IH (rank PrepareInputs) (le_n _) H), andb_true_r.
    apply Nat.leb_le. exact Hb.
Qed.

Lemma compress_moved device ts rest :
  compress_after (Some PrepareInputs)
    (map (fun ch => step_of (fst ch))
       (map (fun t => (CTensorTo t (ToDevice device), Returned)) ts)
     ++ rest)
  = compress_after (Some PrepareInputs) rest.
Proof.
  induction ts as [|t ts IH]; [reflexivity|].
  cbn [map app fst step_of compress_after same_step rank Nat.eqb].
  exact IH.
Qed.

Lemma all_returned_moved device ts rest :
  Forall (fun ch : call * completion => snd ch = Returned) rest ->
  Forall (fun ch : call * completion => snd ch = Returned)
    (map (fun t => (CTensorTo t (ToDevice device), Returned)) ts ++ rest).
Proof.
  intros H. apply Forall_app. split; [|exact H].
  apply Forall_forall. intros x Hx. apply in_map_iff in Hx as [t [<- _]].
  reflexivity.
Qed.

Ltac simpl_calls :=
  cbn [calls]; repeat rewrite calls_app; repeat rewrite calls_moved;
  cbn [calls app].

(** C5.  In every run the library calls happen in the order of the
    steps: of any two calls, the earlier one returned before the later
    one was made, and belongs to the same or to an earlier step.  A run
    that reaches the end of [main] goes through the steps load image,
    load processor, load model, build prompt, generate, decode (after
    the setup, and with the preprocessing before generation), each call
    having returned. *)
Theorem C5_call_sequence :
  forall argv env,
    let r := run_script argv env in
    StronglySorted in_order (calls (trace r))
    /\ (completed argv env ->
        steps (trace r)
        = [Setup; LoadImage; LoadProcessor; LoadModel; BuildPrompt;
           PrepareInputs; Generate; Decode]
        /\ filter named (steps (trace r))
           = [LoadImage; LoadProcessor; LoadModel; BuildPrompt;
              Generate; Decode]
        /\ Forall (fun ch => snd ch = Returned) (calls (trace r))).
Proof.
  intros argv env r. subst r. split.
  - apply (sequenced_sound _ true 0).
    explore; simpl_calls; try reflexivity;
      cbn [sequenced step_of rank Nat.leb returned andb];
      apply sequenced_moved; solve [auto with arith | reflexivity].
  - assert (Hsteps :
              completed argv env ->
              steps (trace (run_script argv env))
              = [Setup; LoadImage; LoadProcessor; LoadModel; BuildPrompt;
                 PrepareInputs; Generate; Decode]
              /\ Forall (fun ch => snd ch = Returned)
                   (calls (trace (run_script argv env)))).
    { explore; intros Hc; try discriminate Hc; unfold steps; simpl_calls;
        (split;
         [ unfold compress; cbn [map fst step_of app]; rewrite map_app;
           cbn [map fst step_of compress_after same_step rank Nat.eqb];
           rewrite compress_moved; reflexivity
         | repeat (first [ apply all_returned_moved
                         | constructor; [reflexivity|]
                         | constructor ]) ]). }
    intros Hc. destruct (Hsteps Hc) as [H1 H2].
    split; [exact H1|]. split; [rewrite H1; reflexivity|exact H2].
Qed.

Lemma C5_witness :
  completed demo_argv (demo_env true no_failure)
  /\ filter named (steps (trace (run_script demo_argv (demo_env true no_failure))))
     = [LoadImage; LoadProcessor; LoadModel; BuildPrompt; Generate; Decode].
Proof.
  assert (Hc : completed demo_argv (demo_env true no_failure)).
  { vm_compute. reflexivity. }
  split; [exact Hc|].
  exact (proj1 (proj2 (proj2 (C5_call_sequence demo_argv (demo_env true no_failure))
                         Hc))).
Defined.

(* ================================================================= *)
(** ** The prompt *)

Ltac find_in :=
  repeat (cbn [In];
          first [left; reflexivity | right | apply in_or_app; right]).

(** C1.  The keys of [MODE_PROMPTS] are the four mode names, each once.
    In every run the conversation handed to the chat template carries,
    as the user's instruction, the string the table assigns to the
    selected mode, and the text handed to the processor (and from there
    to the model) is that conversation rendered by the template. *)
Theorem C1_mode_prompt_selection :
  dict_keys MODE_PROMPTS
  = ["descriptive"; "straightforward"; "booru"; "training"]
  /\ NoDup (dict_keys MODE_PROMPTS)
  /\ forall argv env,
       (forall p convo tok agp how,
           In (ECall (CApplyChatTemplate p convo tok agp) how)
              (trace (run_script argv env)) ->
           exists args m prompt,
             parse_args argv = Parsed args
             /\ mode args = PStr m
             /\ dict_lookup MODE_PROMPTS m = Some prompt
             /\ nth_error convo 1
                = Some {| role := "user"; content := prompt |})
       /\ (forall p texts images rt how,
              In (ECall (CProcessorCall p texts images rt) how)
                 (trace (run_script argv env)) ->
              exists args m prompt rendered,
                parse_args argv = Parsed args
                /\ mode args = PStr m
                /\ dict_lookup MODE_PROMPTS m = Some prompt
                /\ apply_chat_template env p (conversation prompt) false true
                   = Ok (TemplateStr rendered)
                /\ texts = [rendered]).
Proof.
  split; [reflexivity|]. split.
  - cbn. repeat constructor; cbn; intuition discriminate.
  - intros argv env. split.
    + intros p convo tok agp how.
      explore; intros H; in_cases H;
        do 3 eexists;
        (split; [reflexivity|]); (split; [eassumption|]);
        (split; [eapply prompt_lookup; eassumption|reflexivity]).
    + intros p texts images rt how.
      explore; intros H; in_cases H;
        do 4 eexists;
        (split; [reflexivity|]); (split; [eassumption|]);
        (split; [eapply prompt_lookup; eassumption|]);
        (split; [eassumption|reflexivity]).
Qed.

Lemma C1_witness :
  In (ECall (CApplyChatTemplate (mk_processor 0)
               (conversation "Write a long detailed description for this image.")
               false true) Returned)
     (trace (run_script demo_argv (demo_env true no_failure)))
  /\ exists args,
       parse_args demo_argv = Parsed args
       /\ mode args = PStr "descriptive"
       /\ dict_lookup MODE_PROMPTS "descriptive"
          = Some "Write a long detailed description for this image.".
Proof.
  assert (Hin : In (ECall (CApplyChatTemplate (mk_processor 0)
                             (conversation
                                "Write a long detailed description for this image.")
                             false true) Returned)
                   (trace (run_script demo_argv (demo_env true no_failure)))).
  { find_event. }
  split; [exact Hin|].
  destruct (proj1 (proj2 (proj2 C1_mode_prompt_selection) demo_argv
                     (demo_env true no_failure)) _ _ _ _ _ Hin)
    as [args [m [prompt [Hp [Hm [Hl Hn]]]]]].
  exists args. split; [exact Hp|].
  cbn in Hp. injection Hp as <-. split; reflexivity.
Defined.

(** C7.  Whenever the chat template is applied, its argument is the
    two-message conversation: the fixed system message, then a user
    message whose content is the prompt of the selected mode; it is
    applied without tokenizing and with the generation prompt added.
    A run that reaches the end of [main] has applied it. *)
Theorem C7_conversation :
  forall argv env,
    (forall p convo tok agp how,
        In (ECall (CApplyChatTemplate p convo tok agp) how)
           (trace (run_script argv env)) ->
        exists args m prompt,
          parse_args argv = Parsed args
          /\ mode args = PStr m
          /\ dict_lookup MODE_PROMPTS m = Some prompt
          /\ convo
             = [ {| role := "system";
                    content := "You are a helpful image captioner." |};
                 {| role := "user"; content := prompt |} ]
          /\ tok = false /\ agp = true)
    /\ (completed argv env ->
        exists p convo,
          In (ECall (CApplyChatTemplate p convo false true) Returned)
             (trace (run_script argv env))).
Proof.
  intros argv env. split.
  - intros p convo tok agp how.
    explore; intros H; in_cases H;
      do 3 eexists; (split; [reflexivity|]); (split; [eassumption|]);
      (split; [eapply prompt_lookup; eassumption|]);
      (split; [reflexivity|]); split; reflexivity.
  - explore; intros Hc; try discriminate Hc;
      eexists; eexists; find_in.
Qed.

Lemma C7_witness :
  completed ["--image"; "cat.png"; "--mode=training"] (demo_env false no_failure)
  /\ exists p convo,
       In (ECall (CApplyChatTemplate p convo false true) Returned)
          (trace (run_script ["--image"; "cat.png"; "--mode=training"]
                             (demo_env false no_failure)))
       /\ map role convo = ["system"; "user"].
Proof.
  assert (Hc : completed ["--image"; "cat.png"; "--mode=training"]
                         (demo_env false no_failure)).
  { vm_compute. reflexivity. }
  split; [exact Hc|].
  destruct (proj2 (C7_conversation _ _) Hc) as [p [convo Hin]].
  exists p, convo. split; [exact Hin|].
  destruct (proj1 (C7_conversation _ _) _ _ _ _ _ Hin)
    as [args [m [prompt [_ [_ [_ [Hconvo _]]]]]]].
  rewrite Hconvo. reflexivity.
Defined.

(* ================================================================= *)
(** ** Quantization *)

(** C4.  Whenever the model is loaded, either CUDA is available, the
    options object was built with [load_in_4bit=True], the [nf4]
    quantization type and [float16] compute dtype, and the model is
    loaded with that object as its quantization configuration; or CUDA
    is not available and the model is loaded with [torch_dtype=bfloat16]
    and no quantization configuration.  On CPU no options object is ever
    built, and the only options object built anywhere is the 4-bit one,
    on CUDA. *)
Theorem C4_quantization :
  forall argv env,
    let r := run_script argv env in
    (forall id kw how,
        In (ECall (CModelFromPretrained id kw) how) (trace r) ->
        (cuda_is_available env = Ok true
         /\ exists cfg,
              bits_and_bytes_config env
                {| load_in_4bit := true; bnb_4bit_compute_dtype := Float16;
                   bnb_4bit_quant_type := "nf4" |} = Ok cfg
              /\ In (ECall (CBitsAndBytesConfig
                              {| load_in_4bit := true;
                                 bnb_4bit_compute_dtype := Float16;
                                 bnb_4bit_quant_type := "nf4" |}) Returned)
                    (trace r)
              /\ kw = {| quantization_config := Some cfg;
                         torch_dtype := None; device_map := "auto" |})
        \/ (cuda_is_available env = Ok false
            /\ kw = {| quantization_config := None;
                       torch_dtype := Some BFloat16; device_map := "auto" |}))
    /\ (cuda_is_available env = Ok false ->
        forall kw how, ~ In (ECall (CBitsAndBytesConfig kw) how) (trace r))
    /\ (forall kw how,
          In (ECall (CBitsAndBytesConfig kw) how) (trace r) ->
          cuda_is_available env = Ok true
          /\ kw = {| load_in_4bit := true; bnb_4bit_compute_dtype := Float16;
                     bnb_4bit_quant_type := "nf4" |}).
Proof.
  intros argv env r. subst r. split; [|split].
  - intros id kw how.
    explore; intros H; in_cases H;
      first
        [ left; split; [reflexivity|];
          eexists; split; [eassumption|]; split; [find_in|reflexivity]
        | right; split; reflexivity ].
  - explore; intros Hcpu; try discriminate Hcpu;
      intros kw how H; in_cases H.
  - intros kw how.
    explore; intros H; in_cases H; split; reflexivity.
Qed.

Lemma C4_witness :
  cuda_is_available (demo_env false no_failure) = Ok false
  /\ (forall kw how,
         ~ In (ECall (CBitsAndBytesConfig kw) how)
              (trace (run_script demo_argv (demo_env false no_failure))))
  /\ In (ECall (CModelFromPretrained model_id
                  {| quantization_config := None;
                     torch_dtype := Some BFloat16; device_map := "auto" |})
               Returned)
        (trace (run_script demo_argv (demo_env false no_failure))).
Proof.
  split; [reflexivity|]. split.
  - exact (proj1 (proj2 (C4_quantization demo_argv (demo_env false no_failure)))
             eq_refl).
  - find_event.
Defined.

(* ================================================================= *)
(** ** Decoding *)

Lemma skipn_prefix {A} (l1 l2 : list A) : skipn (length l1) (l1 ++ l2) = l2.
Proof. induction l1; simpl; auto. Qed.

(** C9.  Whenever the tokenizer decodes, its argument is row 0 of the
    generated batch without its first [n] tokens, [n] being the second
    dimension of the [input_ids] tensor that was passed to [generate]:
    when the row is the prompt followed by new tokens, only the new
    tokens are decoded.  A run that reaches the end of [main] has
    decoded. *)
Theorem C9_decode_after_prompt :
  forall argv env,
    let r := run_script argv env in
    (forall p ids skip clean how,
        In (ECall (CDecode p ids skip clean) how) (trace r) ->
        exists m inputs row rest t n,
          In (ECall (CGenerate m inputs sampling) Returned) (trace r)
          /\ model_generate env m inputs sampling = Ok (row :: rest)
          /\ dict_lookup inputs "input_ids" = Some (FTensor t)
          /\ nth_error (t_shape t) 1 = Some n
          /\ ids = skipn n row
          /\ (forall echoed new,
                 row = echoed ++ new -> length echoed = n -> ids = new))
    /\ (completed argv env ->
        exists p ids,
          In (ECall (CDecode p ids true false) Returned) (trace r)).
Proof.
  intros argv env r. subst r. split.
  - intros p ids skip clean how.
    explore; intros H; in_cases H;
      do 6 eexists;
      (split; [find_in|]); (split; [eassumption|]);
      (split; [eassumption|]); (split; [eassumption|]);
      (split; [reflexivity|]);
      intros echoed new -> <-; apply skipn_prefix.
  - explore; intros Hc; try discriminate Hc; eexists; eexists; find_in.
Qed.

Lemma C9_witness :
  In (ECall (CDecode (mk_processor 0) [7; 8; 9]%Z true false) Returned)
     (trace (run_script demo_argv (demo_env false no_failure)))
  /\ exists m inputs rest,
       model_generate (demo_env false no_failure) m inputs sampling
       = Ok ([101; 102; 103; 7; 8; 9]%Z :: rest).
Proof.
  assert (Hin : In (ECall (CDecode (mk_processor 0) [7; 8; 9]%Z true false)
                          Returned)
                   (trace (run_script demo_argv (demo_env false no_failure)))).
  { find_event. }
  split; [exact Hin|].
  destruct (proj1 (C9_decode_after_prompt demo_argv (demo_env false no_failure))
              _ _ _ _ _ Hin)
    as [m [inputs [row [rest [t [n [_ [Hg _]]]]]]]].
  exists m, inputs, []. reflexivity.
Defined.

(* ================================================================= *)
(** ** The image *)

Lemma followed_by_here a b t : followed_by (a :: b :: t) a b.
Proof. exists [], t. reflexivity. Qed.

Lemma followed_by_cons x t a b : followed_by t a b -> followed_by (x :: t) a b.
Proof. intros [l [r ->]]. exists (x :: l), r. reflexivity. Qed.

Ltac solve_followed :=
  first [ apply followed_by_here | apply followed_by_cons; solve_followed ].

(** C10.  A successfully opened image is converted to RGB by the very
    next call, whatever the opened image is; the processor only ever
    receives the result of that conversion; and when opening or
    converting raises, the exit status is 1 and neither the processor
    nor the model is loaded. *)
Theorem C10_image_rgb :
  forall argv env,
    let r := run_script argv env in
    (forall path,
        In (ECall (CImageOpen path) Returned) (trace r) ->
        exists opened how,
          image_open env path = Ok opened
          /\ followed_by (trace r)
               (ECall (CImageOpen path) Returned)
               (ECall (CImageConvert opened "RGB") how))
    /\ (forall p texts images rt how,
          In (ECall (CProcessorCall p texts images rt) how) (trace r) ->
          exists args opened img,
            parse_args argv = Parsed args
            /\ image_open env (image args) = Ok opened
            /\ image_convert env opened "RGB" = Ok img
            /\ images = [img])
    /\ (forall c e,
          In (ECall c (Raised e)) (trace r) ->
          step_of c = LoadImage ->
          exit_status r = 1%Z
          /\ forall c' how,
               In (ECall c' how) (trace r) ->
               step_of c' <> LoadProcessor /\ step_of c' <> LoadModel).
Proof.
  intros argv env r. subst r. split; [|split].
  - intros path.
    explore; intros H; in_cases H;
      eexists; eexists; (split; [eassumption|]); solve_followed.
  - intros p texts images rt how.
    explore; intros H; in_cases H;
      do 3 eexists; (split; [reflexivity|]); (split; [eassumption|]);
      (split; [eassumption|reflexivity]).
  - intros c e.
    explore; intros H Hs; in_cases H; try discriminate Hs;
      (split; [reflexivity|]);
      intros c' how H'; in_cases H'; split; discriminate.
Qed.

Lemma C10_witness :
  In (ECall (CImageConvert (mk_image "RGBA" 0) "RGB")
            (Raised (demo_error "convert")))
     (trace (run_script demo_argv (demo_env true "convert")))
  /\ step_of (CImageConvert (mk_image "RGBA" 0) "RGB") = LoadImage
  /\ exit_status (run_script demo_argv (demo_env true "convert")) = 1%Z
  /\ written Stderr (trace (run_script demo_argv (demo_env true "convert")))
     = [Line "Error opening image: convert"].
Proof.
  assert (Hin : In (ECall (CImageConvert (mk_image "RGBA" 0) "RGB")
                          (Raised (demo_error "convert")))
                   (trace (run_script demo_argv (demo_env true "convert")))).
  { find_event. }
  split; [exact Hin|]. split; [reflexivity|].
  split; [|vm_compute; reflexivity].
  exact (proj1 (proj2 (proj2 (C10_image_rgb demo_argv
                                (demo_env true "convert")))
                  _ _ Hin eq_refl)).
Defined.

(* ================================================================= *)
(** ** Stripping whitespace *)

Lemma drop_blank_spec w2 w3 s :
  exists l,
    s = l ++ drop_blank w2 w3 s
    /\ blank w2 w3 l
    /\ starts_blank w2 w3 (drop_blank w2 w3 s) = false.
Proof.
  remember (length s) as n eqn:Hn. revert s Hn.
  induction n as [n IH] using lt_wf_ind. intros s ->.
  destruct s as [|a r1]; [exists []; repeat split; constructor|].
  cbn [drop_blank]. destruct (ws1 a) eqn:E1.
  { destruct (IH (length r1) (Nat.lt_succ_diag_r _) r1 eq_refl)
      as [l [Hl [Hb Hs]]].
    exists (a :: l). cbn [app]. rewrite <- Hl.
    repeat split; [constructor; assumption|exact Hs]. }
  destruct r1 as [|b r2].
  { exists []. repeat split; [constructor|]. cbn. rewrite E1. reflexivity. }
  destruct (w2 a b) eqn:E2.
  { destruct (IH (length r2)) with (s := r2) as [l [Hl [Hb Hs]]];
      [cbn; lia|reflexivity|].
    exists (a :: b :: l). cbn [app]. rewrite <- Hl.
    repeat split; [apply blank_2; assumption|exact Hs]. }
  destruct r2 as [|c r3].
  { exists []. repeat split; [constructor|]. cbn. rewrite E1, E2.
    reflexivity. }
  destruct (w3 a b c) eqn:E3.
  { destruct (IH (length r3)) with (s := r3) as [l [Hl [Hb Hs]]];
      [cbn; lia|reflexivity|].
    exists (a :: b :: c :: l). cbn [app]. rewrite <- Hl.
    repeat split; [apply blank_3; assumption|exact Hs]. }
  exists []. repeat split; [constructor|]. cbn. rewrite E1, E2, E3.
  reflexivity.
Qed.

Lemma blank_app w2 w3 l1 l2 :
  blank w2 w3 l1 -> blank w2 w3 l2 -> blank w2 w3 (l1 ++ l2).
Proof.
  intros H1 H2. induction H1; cbn [app];
    [assumption|apply blank_1|apply blank_2|apply blank_3]; assumption.
Qed.

(** A run of whitespace read backwards is a run of whitespace. *)
Lemma blank_rev l : blank ws2_rev ws3_rev l -> blank ws2 ws3 (rev l).
Proof.
  intros H. induction H; cbn [rev].
  - constructor.
  - apply blank_app; [assumption|]. apply blank_1; [assumption|constructor].
  - rewrite <- app_assoc. apply blank_app; [assumption|].
    apply blank_2; [assumption|constructor].
  - rewrite <- !app_assoc. apply blank_app; [assumption|].
    apply blank_3; [assumption|constructor].
Qed.

Lemma starts_blank_prefix w2 w3 y rest :
  starts_blank w2 w3 (y ++ rest) = false -> starts_blank w2 w3 y = false.
Proof.
  destruct y as [|a [|b [|c y]]]; cbn; intros H; try reflexivity.
  - apply orb_false_iff in H as [H _]. rewrite H. reflexivity.
  - apply orb_false_iff in H as [H1 H]. rewrite H1.
    destruct rest; cbn in *.
    + rewrite orb_false_r in H. rewrite H. reflexivity.
    + apply orb_false_iff in H as [H _]. rewrite H. reflexivity.
  - exact H.
Qed.

Theorem strip_spec s : stripped_of s (strip s).
Proof.
  unfold stripped_of, strip. rewrite list_ascii_of_string_of_list_ascii.
  set (bytes := list_ascii_of_string s). unfold strip_bytes.
  destruct (drop_blank_spec ws2 ws3 bytes) as [l [Hl [Hbl Hsl]]].
  fold (lstrip_bytes bytes) in Hl, Hsl. set (x := lstrip_bytes bytes) in *.
  destruct (drop_blank_spec ws2_rev ws3_rev (rev x)) as [r [Hr [Hbr Hsr]]].
  fold (rstrip_rev (rev x)) in Hr, Hsr. set (y := rstrip_rev (rev x)) in *.
  assert (Hx : x = rev y ++ rev r).
  { rewrite <- (rev_involutive x), Hr, rev_app_distr. reflexivity. }
  exists l, (rev r). repeat split.
  - rewrite <- Hx. exact Hl.
  - exact Hbl.
  - apply blank_rev. exact Hbr.
  - apply (starts_blank_prefix _ _ _ (rev r)). rewrite <- Hx. exact Hsl.
  - rewrite rev_involutive. exact Hsr.
Qed.

(* ================================================================= *)
(** ** Output streams *)

Ltac simpl_written :=
  cbn [written same_stream]; repeat rewrite written_app;
  repeat rewrite written_moved; cbn [written same_stream app].

(** C6.  A run that reaches the end of [main] writes exactly one text to
    standard output: the string returned by the tokenizer's [decode],
    without its leading and trailing whitespace.  A run that ends with a
    non-zero status writes nothing to standard output, so that every
    error message is on standard error; the only other text that ever
    reaches standard output is the parser's help. *)
Theorem C6_output_streams :
  forall argv env,
    let r := run_script argv env in
    (completed argv env ->
     exists p ids decoded,
       In (ECall (CDecode p ids true false) Returned) (trace r)
       /\ tokenizer_decode env p ids true false = Ok decoded
       /\ written Stdout (trace r) = [Line (strip decoded)]
       /\ stripped_of decoded (strip decoded)
       /\ forall x, In x (written Stderr (trace r)) ->
                    x = Line "Warning: No GPU. Running on CPU (slow).")
    /\ (exit_status r <> 0%Z -> written Stdout (trace r) = [])
    /\ (forall x,
          In x (written Stdout (trace r)) ->
          (x = ArgparseHelp /\ parse_args argv = HelpExit)
          \/ (completed argv env /\ exists decoded, x = Line (strip decoded))).
Proof.
  intros argv env r. subst r. split; [|split].
  - explore; intros Hc; try discriminate Hc;
      do 3 eexists;
      (split; [find_in|]); (split; [eassumption|]);
      simpl_written;
      (split; [reflexivity|]); (split; [apply strip_spec|]);
      intros ? Hwarn; in_cases Hwarn; reflexivity.
  - explore; intros Hs; simpl_written; try reflexivity;
      exfalso; apply Hs; reflexivity.
  - intros x.
    explore; simpl_written; intros Hx; in_cases Hx;
      first [ left; split; reflexivity
            | right; split; [reflexivity|eexists; reflexivity] ].
Qed.

Lemma C6_witness :
  completed ["--image"; "cat.png"; "--low-vram"] (demo_env false no_failure)
  /\ written Stdout
       (trace (run_script ["--image"; "cat.png"; "--low-vram"]
                          (demo_env false no_failure)))
     = [Line "a cat on a mat"]
  /\ written Stderr
       (trace (run_script ["--image"; "cat.png"; "--low-vram"]
                          (demo_env false no_failure)))
     = [Line "Warning: No GPU. Running on CPU (slow)."].
Proof.
  assert (Hc : completed ["--image"; "cat.png"; "--low-vram"]
                         (demo_env false no_failure)).
  { vm_compute. reflexivity. }
  split; [exact Hc|].
  destruct (proj1 (C6_output_streams _ _) Hc)
    as [p [ids [decoded [_ [_ [Hout _]]]]]].
  split; vm_compute; reflexivity.
Defined.

(* ================================================================= *)
(** * Further properties of the script *)

(** ** Exit status *)

(** The exit status is 0, 1 or 2.  It is 2 exactly when the parser
    rejects the command line, and 0 exactly when [main] runs to its end
    or the parser prints its help; a library is only ever called after
    the command line has been accepted. *)
Theorem exit_status_classification :
  forall argv env,
    let r := run_script argv env in
    (exit_status r = 0%Z \/ exit_status r = 1%Z \/ exit_status r = 2%Z)
    /\ (exit_status r = 2%Z <-> exists e, parse_args argv = ErrorExit e)
    /\ (exit_status r = 0%Z <->
        completed argv env \/ parse_args argv = HelpExit)
    /\ (calls (trace r) <> [] -> exists args, parse_args argv = Parsed args).
Proof.
  intros argv env r. subst r. split; [|split; [|split]].
  - explore; auto.
  - explore; (split; [intros H; try discriminate H; eexists; reflexivity
                     |intros [? H]; try discriminate H; reflexivity]).
  - explore;
      (split;
       [ intros H; try discriminate H;
         first [left; reflexivity | right; reflexivity]
       | intros [H|H]; try discriminate H; reflexivity ]).
  - explore; intros H; try (exfalso; apply H; reflexivity);
      eexists; reflexivity.
Qed.

Lemma exit_status_classification_witness :
  calls (trace (run_script demo_argv (demo_env true "open"))) <> []
  /\ exit_status (run_script demo_argv (demo_env true "open")) = 1%Z
  /\ exists args, parse_args demo_argv = Parsed args.
Proof.
  assert (H : calls (trace (run_script demo_argv (demo_env true "open")))
              <> []).
  { vm_compute. discriminate. }
  split; [exact H|]. split; [vm_compute; reflexivity|].
  exact (proj2 (proj2 (proj2 (exit_status_classification demo_argv
                                (demo_env true "open")))) H).
Defined.

(** ** Error reports *)

(** When a library call raises, the last two events of the run are that
    call and its report on standard error.  An [ImportError] at import,
    and any exception while opening or converting the image, loading the
    processor, or loading the model and putting it in evaluation mode, is
    reported by the script's own one-line message; an import failure
    that is not an [ImportError], a failure while building the
    quantization options, and every failure from the chat template on
    are not caught and end in the interpreter's traceback. *)
Theorem failure_report_exact :
  forall argv env c e,
    In (ECall c (Raised e)) (trace (run_script argv env)) ->
    ends_with (trace (run_script argv env))
      [ECall c (Raised e); EWrite Stderr (failure_report c e)].
Proof.
  intros argv env c e.
  explore; intros H; in_cases H; cbn [failure_report];
    repeat match goal with
           | E : is_import_error _ = _ |- _ => rewrite E; clear E
           end;
    solve_suffix.
Qed.

Lemma failure_report_exact_witness :
  In (ECall (CBitsAndBytesConfig nf4_kwargs) (Raised (demo_error "bnb")))
     (trace (run_script demo_argv (demo_env true "bnb")))
  /\ ends_with (trace (run_script demo_argv (demo_env true "bnb")))
       [ECall (CBitsAndBytesConfig nf4_kwargs) (Raised (demo_error "bnb"));
        EWrite Stderr (Traceback (demo_error "bnb"))].
Proof.
  assert (H : In (ECall (CBitsAndBytesConfig nf4_kwargs)
                        (Raised (demo_error "bnb")))
                 (trace (run_script demo_argv (demo_env true "bnb")))).
  { find_event. }
  split; [exact H|].
  exact (failure_report_exact demo_argv (demo_env true "bnb") _ _ H).
Defined.

(** ** The CPU warning *)

(** The warning about running on the CPU is written exactly when the
    device query returned and reported no CUDA device, and then it is
    the event right after the query. *)
Theorem cpu_warning_iff_no_cuda :
  forall argv env,
    let r := run_script argv env in
    (In cpu_warning (trace r) <->
     In (ECall CCudaIsAvailable Returned) (trace r)
     /\ cuda_is_available env = Ok false)
    /\ (In cpu_warning (trace r) ->
        followed_by (trace r) (ECall CCudaIsAvailable Returned) cpu_warning).
Proof.
  intros argv env r. subst r. unfold cpu_warning. split.
  - explore;
      (split;
       [ intros H;
         first [ solve [split; [find_in|reflexivity]]
               | exfalso; solve [in_cases H] ]
       | intros [H E]; try discriminate E;
         first [ solve [find_in] | exfalso; solve [in_cases H] ] ]).
  - explore; intros H;
      first [solve [solve_followed] | exfalso; solve [in_cases H]].
Qed.

Lemma cpu_warning_iff_no_cuda_witness :
  In cpu_warning (trace (run_script demo_argv (demo_env false "generate")))
  /\ followed_by (trace (run_script demo_argv (demo_env false "generate")))
       (ECall CCudaIsAvailable Returned) cpu_warning.
Proof.
  assert (H : In cpu_warning
                 (trace (run_script demo_argv (demo_env false "generate")))).
  { find_event. }
  split; [exact H|].
  exact (proj2 (cpu_warning_iff_no_cuda demo_argv
                  (demo_env false "generate")) H).
Defined.

(** ** Counting calls *)

Lemma calls_in_app s t1 t2 :
  calls_in s (t1 ++ t2) = calls_in s t1 + calls_in s t2.
Proof.
  unfold calls_in. rewrite calls_app, filter_app, length_app. reflexivity.
Qed.

Lemma calls_in_moved s device ts :
  same_step s PrepareInputs = false -> calls_in s (moved device ts) = 0.
Proof.
  intros H. unfold calls_in. rewrite calls_moved.
  induction ts as [|t ts IH]; [reflexivity|].
  cbn [map filter fst step_of]. rewrite H. exact IH.
Qed.

Lemma calls_in_cons s e t :
  calls_in s (e :: t)
  = match e with
    | ECall c _ => if same_step s (step_of c) then 1 else 0
    | EWrite _ _ => 0
    end + calls_in s t.
Proof.
  unfold calls_in. destruct e as [c h|o x]; cbn [calls filter fst];
    [destruct (same_step s (step_of c))|]; reflexivity.
Qed.

Ltac count_calls :=
  repeat first [ rewrite calls_in_cons
               | rewrite calls_in_app
               | rewrite calls_in_moved by reflexivity ];
  cbn; lia.

(** ** The chat template must return a string *)

(** When [apply_chat_template] returns something that is not a [str],
    the assertion of line 98 fails: the run ends there with an uncaught
    [AssertionError] and status 1, before the processor is called on the
    image. *)
Theorem template_result_must_be_str :
  forall argv env p convo tok agp ids,
    In (ECall (CApplyChatTemplate p convo tok agp) Returned)
       (trace (run_script argv env)) ->
    apply_chat_template env p convo tok agp = Ok (TemplateIds ids) ->
    exit_status (run_script argv env) = 1%Z
    /\ ends_with (trace (run_script argv env))
         [ECall (CApplyChatTemplate p convo tok agp) Returned;
          EWrite Stderr (Traceback (mk_exn AssertionError EmptyString))]
    /\ calls_in PrepareInputs (trace (run_script argv env)) = 0.
Proof.
  intros argv env p convo tok agp ids.
  explore; intros H E; in_cases H; try congruence;
    (split; [reflexivity|]); (split; [solve_suffix|reflexivity]).
Qed.

Lemma template_result_must_be_str_witness :
  In (ECall (CApplyChatTemplate (mk_processor 0)
               (conversation DEFAULT_PROMPT) false true) Returned)
     (trace (run_script demo_argv ids_env))
  /\ exit_status (run_script demo_argv ids_env) = 1%Z
  /\ calls_in PrepareInputs (trace (run_script demo_argv ids_env)) = 0.
Proof.
  assert (H : In (ECall (CApplyChatTemplate (mk_processor 0)
                           (conversation DEFAULT_PROMPT) false true)
                        Returned)
                 (trace (run_script demo_argv ids_env))).
  { find_event. }
  split; [exact H|].
  destruct (template_result_must_be_str demo_argv ids_env _ _ _ _
              [1; 2; 3]%Z H eq_refl) as [H1 [_ H3]].
  split; [exact H1|exact H3].
Defined.

(** ** No call is repeated *)







(** ** The objects in use *)

(** Generation uses the model that [from_pretrained] returned for
    [model_id], after [eval] returned on it, with the sampling settings
    of lines 108-111; the chat template, the preprocessing and the
    decoding all use the processor that [from_pretrained] returned for
    the same [model_id]; tensors are only ever moved to the device of
    that model or cast to [float16]. *)
Theorem loaded_objects_used :
  forall argv env,
    let r := run_script argv env in
    (forall m inputs kw how,
        In (ECall (CGenerate m inputs kw) how) (trace r) ->
        kw = {| max_new_tokens := 512%Z; do_sample := true;
                temperature := (6 # 10)%Q; top_p := (9 # 10)%Q |}
        /\ In (ECall (CModelEval m) Returned) (trace r)
        /\ exists lkw, model_from_pretrained env model_id lkw = Ok m)
    /\ (forall p convo tok agp how,
          In (ECall (CApplyChatTemplate p convo tok agp) how) (trace r) ->
          processor_from_pretrained env model_id = Ok p)
    /\ (forall p texts images rt how,
          In (ECall (CProcessorCall p texts images rt) how) (trace r) ->
          processor_from_pretrained env model_id = Ok p /\ rt = "pt")
    /\ (forall p ids skip clean how,
          In (ECall (CDecode p ids skip clean) how) (trace r) ->
          processor_from_pretrained env model_id = Ok p
          /\ skip = true /\ clean = false)
    /\ (forall t target how,
          In (ECall (CTensorTo t target) how) (trace r) ->
          exists m lkw,
            model_from_pretrained env model_id lkw = Ok m
            /\ (target = ToDevice (model_device m)
                \/ target = ToDtype Float16)).
Proof.
  intros argv env r. subst r. split; [|split; [|split; [|split]]].
  - intros m inputs kw how.
    explore; intros H; in_cases H;
      (split; [reflexivity|]); (split; [find_in|]); eexists; eassumption.
  - intros p convo tok agp how.
    explore; intros H; in_cases H; reflexivity.
  - intros p texts images rt how.
    explore; intros H; in_cases H; split; reflexivity.
  - intros p ids skip clean how.
    explore; intros H; in_cases H; repeat split.
  - intros t target how.
    explore; intros H; in_cases H;
      eexists; eexists; (split; [eassumption|]);
      first [left; reflexivity | right; reflexivity].
Qed.

Lemma loaded_objects_used_witness :
  In (ECall (CGenerate (mk_model "cpu" 0) demo_cpu_inputs sampling)
            (Raised (demo_error "generate")))
     (trace (run_script demo_argv (demo_env false "generate")))
  /\ In (ECall (CModelEval (mk_model "cpu" 0)) Returned)
        (trace (run_script demo_argv (demo_env false "generate"))).
Proof.
  assert (H : In (ECall (CGenerate (mk_model "cpu" 0) demo_cpu_inputs
                                   sampling)
                        (Raised (demo_error "generate")))
                 (trace (run_script demo_argv
                                    (demo_env false "generate")))).
  { find_event. }
  split; [exact H|].
  exact (proj1 (proj2 (proj1 (loaded_objects_used demo_argv
                                (demo_env false "generate")) _ _ _ _ H))).
Defined.

(** ** The [--low-vram] flag *)

Lemma bind_ext {A B} (m : M A) (f g : A -> M B) :
  (forall a, f a = g a) -> bind m f = bind m g.
Proof.
  intros H. destruct m as [t [a|s]]; cbn [bind]; [rewrite H|]; reflexivity.
Qed.

(** The model name contains [nf4], so the test of line 72 does not
    depend on [--low-vram]: two accepted command lines with the same
    image and mode give the same run, whether the flag is set or not. *)
Theorem low_vram_has_no_effect :
  forall argv1 argv2 env a1 a2,
    parse_args argv1 = Parsed a1 ->
    parse_args argv2 = Parsed a2 ->
    image a1 = image a2 ->
    mode a1 = mode a2 ->
    run_script argv1 env = run_script argv2 env.
Proof.
  intros argv1 argv2 env [i1 m1 l1] [i2 m2 l2] H1 H2 Hi Hm.
  cbn [image mode] in Hi, Hm. subst i2 m2.
  unfold run_script, main, parse_command_line. rewrite H1, H2.
  cbn [bind ret app].
  assert (E : caption_image env {| image := i1; mode := m1; low_vram := l1 |}
              = caption_image env
                  {| image := i1; mode := m1; low_vram := l2 |}).
  { unfold caption_image, select_prompt. cbn [image mode].
    do 5 (apply bind_ext; intros).
    rewrite !quantization_options_eq. reflexivity. }
  rewrite E. reflexivity.
Qed.

Lemma low_vram_has_no_effect_witness :
  parse_args ["--image"; "cat.png"; "--low-vram"]
  = Parsed {| image := PStr "cat.png"; mode := PStr "descriptive";
              low_vram := true |}
  /\ run_script ["--image"; "cat.png"; "--low-vram"] (demo_env true no_failure)
     = run_script ["--image"; "cat.png"] (demo_env true no_failure).
Proof.
  split; [reflexivity|].
  apply (low_vram_has_no_effect
           ["--image"; "cat.png"; "--low-vram"] ["--image"; "cat.png"]
           (demo_env true no_failure)
           {| image := PStr "cat.png"; mode := PStr "descriptive";
              low_vram := true |}
           {| image := PStr "cat.png"; mode := PStr "descriptive";
              low_vram := false |});
    reflexivity.
Defined.

(** ** Modes and prompts *)

(** The four prompts are pairwise different: on accepted command lines
    the prompt sent to the model determines the mode. *)
Theorem prompt_determines_mode :
  forall argv1 argv2 a1 a2,
    parse_args argv1 = Parsed a1 ->
    parse_args argv2 = Parsed a2 ->
    select_prompt a1 = select_prompt a2 ->
    mode a1 = mode a2.
Proof.
  intros argv1 argv2 a1 a2 H1 H2.
  apply parse_args_mode in H1, H2. unfold select_prompt.
  destruct H1 as [[m1 [E1 H1]]|[E1 _]]; destruct H2 as [[m2 [E2 H2]]|[E2 _]];
    rewrite E1, E2; try (intros H; discriminate H); try reflexivity.
  rewrite mem_string_In, mode_choices_eq in H1, H2. cbn [In] in H1, H2.
  destruct H1 as [<-|[<-|[<-|[<-|[]]]]];
    destruct H2 as [<-|[<-|[<-|[<-|[]]]]];
    intros H; try reflexivity; vm_compute in H; discriminate H.
Qed.

Lemma prompt_determines_mode_witness :
  select_prompt {| image := PStr "a.png"; mode := PStr "booru";
                   low_vram := false |}
  = select_prompt {| image := PStr "b.png"; mode := PStr "booru";
                     low_vram := true |}
  /\ mode {| image := PStr "a.png"; mode := PStr "booru"; low_vram := false |}
     = mode {| image := PStr "b.png"; mode := PStr "booru";
               low_vram := true |}.
Proof.
  split; [reflexivity|].
  apply (prompt_determines_mode
           ["--image"; "a.png"; "--mode"; "booru"]
           ["--mode=booru"; "--low-vram"; "--image=b.png"]);
    reflexivity.
Defined.

(** ** Repeated and missing options *)



(** ** After generation *)

(** Once [generate] has returned, the tokenizer is called exactly when
    the batch is not empty and [inputs["input_ids"]] is a tensor with at
    least two dimensions.  Otherwise the run ends right after
    generation, with status 1 and an uncaught [IndexError] (empty batch,
    or a shape without a second dimension), [KeyError] (no
    [input_ids]) or [AttributeError] (a value without [shape]). *)
Theorem generation_result_checks :
  forall argv env m inputs kw,
    let r := run_script argv env in
    In (ECall (CGenerate m inputs kw) Returned) (trace r) ->
    ((exists p ids skip clean how,
         In (ECall (CDecode p ids skip clean) how) (trace r))
     <-> (exists row rest t n,
             model_generate env m inputs kw = Ok (row :: rest)
             /\ dict_lookup inputs "input_ids" = Some (FTensor t)
             /\ nth_error (t_shape t) 1 = Some n))
    /\ (calls_in Decode (trace r) = 0 ->
        exit_status r = 1%Z
        /\ exists e,
             ends_with (trace r)
               [ECall (CGenerate m inputs kw) Returned;
                EWrite Stderr (Traceback e)]
             /\ (exn_class e = IndexError
                 \/ exn_class e = KeyError
                 \/ exn_class e = AttributeError))
    /\ (model_generate env m inputs kw = Ok [] ->
        calls_in Decode (trace r) = 0)
    /\ (dict_lookup inputs "input_ids" = None ->
        calls_in Decode (trace r) = 0).
Proof.
  intros argv env m inputs kw r. subst r.
  explore; intros H; in_cases H;
    (split;
     [ split;
       [ intros [? [? [? [? [? Hd]]]]];
         first [ solve [in_cases Hd]
               | do 4 eexists; repeat split; eassumption ]
       | intros [? [? [? [? [E1 [E2 E3]]]]]];
         first [ congruence | do 5 eexists; solve [find_in] ] ]
     | split;
       [ intros Hc;
         first [ exfalso; revert Hc; count_calls
               | (split; [reflexivity|]); eexists;
                 (split; [solve_suffix|]); cbn [exn_class]; auto ]
       | split; intros E; first [congruence | count_calls] ] ]).
Qed.

Lemma generation_result_checks_witness :
  In (ECall (CGenerate (mk_model "cpu" 0) no_ids_inputs sampling) Returned)
     (trace (run_script demo_argv (custom_env no_ids_inputs "x")))
  /\ dict_lookup no_ids_inputs "input_ids" = None
  /\ calls_in Decode
       (trace (run_script demo_argv (custom_env no_ids_inputs "x"))) = 0
  /\ exit_status (run_script demo_argv (custom_env no_ids_inputs "x")) = 1%Z.
Proof.
  assert (H : In (ECall (CGenerate (mk_model "cpu" 0) no_ids_inputs sampling)
                        Returned)
                 (trace (run_script demo_argv
                                    (custom_env no_ids_inputs "x")))).
  { find_event. }
  split; [exact H|]. split; [reflexivity|].
  destruct (generation_result_checks demo_argv
              (custom_env no_ids_inputs "x") _ _ _ H)
    as [_ [Hfail [_ Hkey]]].
  split; [exact (Hkey eq_refl)|].
  exact (proj1 (Hfail (Hkey eq_refl))).
Defined.

(** ** How many tokens are decoded *)

Lemma length_skipn_sub {A} (n : nat) (l : list A) :
  length (skipn n l) = length l - n.
Proof.
  revert l. induction n as [|n IH]; intros [|a l]; cbn; auto.
Qed.

(** The slice of line 114 never fails: the tokenizer receives the
    generated row without its first [n] tokens, that is
    [len(row) - n] tokens, and none at all when the row is no longer
    than [n], the second dimension of [input_ids]. *)
Theorem decoded_token_count :
  forall argv env p ids skip clean how,
    In (ECall (CDecode p ids skip clean) how)
       (trace (run_script argv env)) ->
    exists m inputs row rest t n,
      model_generate env m inputs sampling = Ok (row :: rest)
      /\ dict_lookup inputs "input_ids" = Some (FTensor t)
      /\ nth_error (t_shape t) 1 = Some n
      /\ length ids = length row - n
      /\ (length row <= n -> ids = []).
Proof.
  intros argv env p ids skip clean how.
  explore; intros H; in_cases H;
    do 6 eexists;
    (split; [eassumption|]); (split; [eassumption|]);
    (split; [eassumption|]);
    (split; [apply length_skipn_sub|]);
    intros Hle; apply skipn_all2; exact Hle.
Qed.

Lemma decoded_token_count_witness :
  In (ECall (CDecode (mk_processor 0) [] true false) Returned)
     (trace (run_script demo_argv (custom_env long_prompt_inputs "x")))
  /\ written Stdout
       (trace (run_script demo_argv (custom_env long_prompt_inputs "x")))
     = [Line "x"].
Proof.
  assert (H : In (ECall (CDecode (mk_processor 0) [] true false) Returned)
                 (trace (run_script demo_argv
                                    (custom_env long_prompt_inputs "x")))).
  { find_event. }
  split; [exact H|].
  destruct (decoded_token_count demo_argv
              (custom_env long_prompt_inputs "x") _ _ _ _ _ H)
    as [m [inputs [row [rest [t [n _]]]]]].
  vm_compute. reflexivity.
Defined.

(** ** Whitespace-only output *)

Lemma ws2_not_ws1 a b : ws2 a b = true -> ws1 a = false.
Proof.
  unfold ws2, ws1, between. intros H.
  apply andb_true_iff in H as [H _]. apply Nat.eqb_eq in H.
  rewrite H. reflexivity.
Qed.

Lemma ws3_lead a b c :
  ws3 a b c = true -> code a = 225 \/ code a = 226 \/ code a = 227.
Proof.
  unfold ws3. intros H.
  repeat (apply orb_true_iff in H as [H|H]);
    repeat (apply andb_true_iff in H as [H _]);
    apply Nat.eqb_eq in H; auto.
Qed.

Lemma ws3_not_shorter a b c :
  ws3 a b c = true -> ws1 a = false /\ ws2 a b = false.
Proof.
  intros H. apply ws3_lead in H. unfold ws1, ws2, between.
  destruct H as [H|[H|H]]; rewrite H; split; reflexivity.
Qed.

Lemma blank_dropped l : blank ws2 ws3 l -> drop_blank ws2 ws3 l = [].
Proof.
  intros H. induction H as [|a r Ha _ IH|a b r Hab _ IH|a b c r Habc _ IH].
  - reflexivity.
  - cbn [drop_blank]. rewrite Ha. exact IH.
  - cbn [drop_blank]. rewrite (ws2_not_ws1 _ _ Hab), Hab. exact IH.
  - cbn [drop_blank]. destruct (ws3_not_shorter _ _ _ Habc) as [H1 H2].
    rewrite H1, H2, Habc. exact IH.
Qed.

Lemma strip_blank s :
  blank ws2 ws3 (list_ascii_of_string s) -> strip s = EmptyString.
Proof.
  intros H. unfold strip, strip_bytes, lstrip_bytes.
  rewrite (blank_dropped _ H). reflexivity.
Qed.

(** The caption is not checked for content: when the tokenizer returns
    an empty string or only whitespace, the script prints an empty line
    and still ends with status 0. *)
Theorem blank_caption_still_succeeds :
  forall argv env p ids skip clean decoded,
    In (ECall (CDecode p ids skip clean) Returned)
       (trace (run_script argv env)) ->
    tokenizer_decode env p ids skip clean = Ok decoded ->
    blank ws2 ws3 (list_ascii_of_string decoded) ->
    written Stdout (trace (run_script argv env)) = [Line EmptyString]
    /\ exit_status (run_script argv env) = 0%Z.
Proof.
  intros argv env p ids skip clean decoded.
  explore; intros H E B; in_cases H;
    (split; [|reflexivity]);
    simpl_written;
    match goal with
    | E' : tokenizer_decode _ _ _ _ _ = Ok ?d |- _ =>
        assert (d = decoded) by congruence; subst d
    end;
    rewrite (strip_blank _ B); reflexivity.
Qed.

Lemma blank_caption_still_succeeds_witness :
  In (ECall (CDecode (mk_processor 0) [7; 8; 9]%Z true false) Returned)
     (trace (run_script demo_argv (custom_env demo_inputs "   ")))
  /\ blank ws2 ws3 (list_ascii_of_string "   ")
  /\ written Stdout
       (trace (run_script demo_argv (custom_env demo_inputs "   ")))
     = [Line EmptyString]
  /\ exit_status (run_script demo_argv (custom_env demo_inputs "   ")) = 0%Z.
Proof.
  assert (H : In (ECall (CDecode (mk_processor 0) [7; 8; 9]%Z true false)
                        Returned)
                 (trace (run_script demo_argv
                                    (custom_env demo_inputs "   ")))).
  { find_event. }
  assert (B : blank ws2 ws3 (list_ascii_of_string "   ")).
  { cbn. repeat (apply blank_1; [reflexivity|]). constructor. }
  split; [exact H|]. split; [exact B|].
  exact (blank_caption_still_succeeds demo_argv
           (custom_env demo_inputs "   ") _ _ _ _ "   " H eq_refl B).
Defined.

(** ** The inputs of generation *)

Lemma dict_lookup_set_eq {V} (d : dict V) k v :
  dict_lookup (dict_set d k v) k = Some v.
Proof.
  induction d as [|[k' v'] d IH]; cbn [dict_set dict_lookup].
  - now rewrite String.eqb_refl.
  - destruct (String.eqb k' k) eqn:E; cbn [dict_lookup]; rewrite E;
      [reflexivity|exact IH].
Qed.

Lemma dict_lookup_set_neq {V} (d : dict V) k k' v :
  k' <> k -> dict_lookup (dict_set d k v) k' = dict_lookup d k'.
Proof.
  intros Hne. induction d as [|[k0 v0] d IH]; cbn [dict_set dict_lookup].
  - destruct (String.eqb k k') eqn:E; [|reflexivity].
    apply String.eqb_eq in E. congruence.
  - destruct (String.eqb k0 k) eqn:E; cbn [dict_lookup].
    + apply String.eqb_eq in E. subst k0.
      destruct (String.eqb k k') eqn:E'; [|reflexivity].
      apply String.eqb_eq in E'. congruence.
    + destruct (String.eqb k0 k'); [reflexivity|exact IH].
Qed.

Lemma dict_set_keys {V} (d : dict V) k v v0 :
  dict_lookup d k = Some v0 -> map fst (dict_set d k v) = map fst d.
Proof.
  induction d as [|[k' v'] d IH]; cbn [dict_set dict_lookup map fst];
    [discriminate|].
  destruct (String.eqb k' k); intros H; cbn [map fst];
    [reflexivity|now rewrite IH].
Qed.

Lemma dict_set_fresh {V} (d : dict V) k v :
  dict_lookup d k = None -> dict_set d k v = d ++ [(k, v)].
Proof.
  induction d as [|[k' v'] d IH]; cbn [dict_set dict_lookup app];
    [reflexivity|].
  destruct (String.eqb k' k); [discriminate|].
  intros H. now rewrite IH.
Qed.

Lemma dict_lookup_app_fresh {V} (d : dict V) k v k' :
  dict_lookup d k' = None -> k' <> k ->
  dict_lookup (d ++ [(k, v)]) k' = None.
Proof.
  intros Hd Hne. induction d as [|[k0 v0] d IH];
    cbn [app dict_lookup] in *.
  - destruct (String.eqb k k') eqn:E; [|reflexivity].
    apply String.eqb_eq in E. congruence.
  - destruct (String.eqb k0 k'); [discriminate|auto].
Qed.

(** Filling a dict from items with distinct keys keeps the items in
    order. *)
Lemma fold_dict_set_fresh {V} (items : list (string * V)) :
  forall acc,
    NoDup (map fst items) ->
    (forall k, In k (map fst items) -> dict_lookup acc k = None) ->
    fold_left (fun a kv => dict_set a (fst kv) (snd kv)) items acc
    = acc ++ items.
Proof.
  induction items as [|[k v] items IH]; intros acc Hnd Hfresh.
  - now rewrite app_nil_r.
  - cbn [fold_left fst snd]. cbn [map fst] in Hnd, Hfresh.
    inversion Hnd as [|? ? Hk Hnd']; subst.
    rewrite dict_set_fresh by (apply Hfresh; left; reflexivity).
    rewrite IH.
    + now rewrite <- app_assoc.
    + exact Hnd'.
    + intros k' Hin. apply dict_lookup_app_fresh.
      * apply Hfresh. right. exact Hin.
      * intros ->. exact (Hk Hin).
Qed.

Lemma to_device_result env device items :
  forall acc t d,
    to_device env device items acc = (t, inl d) ->
    exists items',
      Forall2 (fun kv kv' =>
                 fst kv' = fst kv
                 /\ device_copy env device (snd kv) (snd kv'))
              items items'
      /\ d = fold_left (fun a kv => dict_set a (fst kv) (snd kv)) items' acc.
Proof.
  induction items as [|[k v] items IH]; intros acc t d H.
  - cbn in H. injection H as _ <-. exists []. split; [constructor|reflexivity].
  - cbn [to_device] in H. destruct v as [x|r].
    + destruct (tensor_to env x (ToDevice device)) as [x'|e] eqn:E;
        cbn [lib bind ret app] in H; [|discriminate H].
      destruct (to_device env device items (dict_set acc k (FTensor x')))
        as [t2 r2] eqn:E2.
      injection H as _ ->.
      destruct (IH _ _ _ E2) as [items' [HF Hd]].
      exists ((k, FTensor x') :: items'). split; [|exact Hd].
      constructor; [|exact HF]. split; [reflexivity|].
      cbn. exists x'. auto.
    + cbn [bind ret app] in H.
      destruct (to_device env device items (dict_set acc k (FOther r)))
        as [t2 r2] eqn:E2.
      injection H as _ ->.
      destruct (IH _ _ _ E2) as [items' [HF Hd]].
      exists ((k, FOther r) :: items'). split; [|exact Hd].
      constructor; [|exact HF]. split; reflexivity.
Qed.

Lemma copies_keys env device items items' :
  Forall2 (fun kv kv' : string * feature =>
             fst kv' = fst kv
             /\ device_copy env device (snd kv) (snd kv'))
          items items' ->
  map fst items' = map fst items
  /\ forall k v,
       dict_lookup items k = Some v ->
       exists v', dict_lookup items' k = Some v'
                  /\ device_copy env device v v'.
Proof.
  intros HF. induction HF as [|[k v] [k' v'] l l' [Hk Hv] _ [IH1 IH2]].
  - split; [reflexivity|]. intros k v H. discriminate H.
  - cbn [fst snd] in Hk, Hv. subst k'. split.
    + cbn [map fst]. now rewrite IH1.
    + intros k0 v0 H. cbn [dict_lookup] in H |- *.
      destruct (String.eqb k k0).
      * injection H as <-. exists v'. auto.
      * exact (IH2 _ _ H).
Qed.

(** What the comprehension of line 101 returns, for a mapping with
    distinct keys: the same keys in the same order, each value moved. *)
Lemma to_device_spec env device raw t d :
  to_device env device raw [] = (t, inl d) ->
  NoDup (map fst raw) ->
  map fst d = map fst raw
  /\ forall k v,
       dict_lookup raw k = Some v ->
       exists v', dict_lookup d k = Some v' /\ device_copy env device v v'.
Proof.
  intros H Hnd. destruct (to_device_result _ _ _ _ _ _ H) as [items' [HF ->]].
  destruct (copies_keys _ _ _ _ HF) as [Hk Hl].
  rewrite fold_dict_set_fresh.
  - cbn [app]. split; assumption.
  - rewrite Hk. exact Hnd.
  - intros. reflexivity.
Qed.

Lemma prepared_spec env device raw d inputs :
  (map fst d = map fst raw
   /\ forall k v,
        dict_lookup raw k = Some v ->
        exists v', dict_lookup d k = Some v' /\ device_copy env device v v') ->
  (dict_lookup d "pixel_values" = None /\ inputs = d)
  \/ (exists t t2,
         dict_lookup d "pixel_values" = Some (FTensor t)
         /\ tensor_to env t (ToDtype Float16) = Ok t2
         /\ inputs = dict_set d "pixel_values" (FTensor t2)) ->
  map fst inputs = map fst raw
  /\ forall k v,
       dict_lookup raw k = Some v ->
       exists v', dict_lookup inputs k = Some v' /\ prepared env device k v v'.
Proof.
  intros [Hk Hl] [[Hpv ->]|[t [t2 [Hpv [Hcast ->]]]]].
  - split; [exact Hk|]. intros k v H.
    destruct (Hl _ _ H) as [v' [Hv' Hc]]. exists v'. split; [exact Hv'|].
    destruct (String.eqb k "pixel_values") eqn:E.
    + apply String.eqb_eq in E. subst k. congruence.
    + destruct v as [x|r]; cbn in Hc |- *; [|exact Hc].
      destruct Hc as [x' [Hx ->]]. exists x'. rewrite E. auto.
  - split; [rewrite (dict_set_keys _ _ _ _ Hpv); exact Hk|].
    intros k v H. destruct (Hl _ _ H) as [v' [Hv' Hc]].
    destruct (String.eqb k "pixel_values") eqn:E.
    + apply String.eqb_eq in E. subst k. rewrite Hpv in Hv'.
      injection Hv' as <-. rewrite dict_lookup_set_eq.
      exists (FTensor t2). split; [reflexivity|].
      destruct v as [x|r]; cbn in Hc |- *; [|discriminate Hc].
      destruct Hc as [x' [Hx Heq]]. injection Heq as <-.
      exists t. split; [exact Hx|]. exists t2. auto.
    + rewrite dict_lookup_set_neq
        by (intros ->; rewrite String.eqb_refl in E; discriminate E).
      exists v'. split; [exact Hv'|].
      destruct v as [x|r]; cbn in Hc |- *; [|exact Hc].
      destruct Hc as [x' [Hx ->]]. exists x'. rewrite E. auto.
Qed.

Ltac explore_step_keeping :=
  first
    [ match goal with
      | |- context [to_device ?e ?d ?i ?a] =>
          let H := fresh "Hmove" in
          destruct (to_device_shape e d i a) as [? [[? H]|[? [? H]]]];
          rewrite H; reduce_run
      end
    | explore_step ].

Ltac explore_keeping :=
  unfold_script; repeat explore_step_keeping; normalize_trace.

(** Whatever reaches [generate] comes from the processor: when the
    processor's mapping has distinct keys, the inputs of [generate]
    have the same keys in the same order, every tensor has been moved
    with [to(model.device)], the tensor under [pixel_values] has
    moreover been cast to [float16], and values that are not tensors are
    passed on unchanged. *)
Theorem generate_inputs_prepared :
  forall argv env m inputs kw how,
    In (ECall (CGenerate m inputs kw) how) (trace (run_script argv env)) ->
    exists p texts images raw,
      In (ECall (CProcessorCall p texts images "pt") Returned)
         (trace (run_script argv env))
      /\ processor_call env p texts images "pt" = Ok raw
      /\ (NoDup (map fst raw) ->
          map fst inputs = map fst raw
          /\ forall k v,
               dict_lookup raw k = Some v ->
               exists v',
                 dict_lookup inputs k = Some v'
                 /\ prepared env (model_device m) k v v').
Proof.
  intros argv env m inputs kw how.
  explore_keeping; intros H; in_cases H;
    do 4 eexists;
    (split; [find_in|]); (split; [eassumption|]);
    intros Hnd;
    match goal with
    | Hm : to_device _ _ _ _ = _ |- _ =>
        apply (prepared_spec _ _ _ _ _ (to_device_spec _ _ _ _ _ Hm Hnd))
    end;
    first [ left; split; [eassumption|reflexivity]
          | right; do 2 eexists;
            split; [eassumption|split; [eassumption|reflexivity]] ].
Qed.

Lemma generate_inputs_prepared_witness :
  In (ECall (CGenerate (mk_model "cpu" 0) demo_cpu_inputs sampling) Returned)
     (trace (run_script demo_argv (demo_env false no_failure)))
  /\ NoDup (map fst demo_inputs)
  /\ map fst demo_cpu_inputs = map fst demo_inputs.
Proof.
  assert (H : In (ECall (CGenerate (mk_model "cpu" 0) demo_cpu_inputs
                                   sampling) Returned)
                 (trace (run_script demo_argv
                                    (demo_env false no_failure)))).
  { find_event. }
  assert (Hnd : NoDup (map fst demo_inputs)).
  { cbn. repeat constructor; cbn; intuition discriminate. }
  split; [exact H|]. split; [exact Hnd|].
  destruct (generate_inputs_prepared demo_argv (demo_env false no_failure)
              _ _ _ _ H) as [p [texts [images [raw [_ [Hraw Hrel]]]]]].
  cbn in Hraw. injection Hraw as <-.
  exact (proj1 (Hrel Hnd)).
Defined.
